(** * ACE-Step 1.5: memory admission and security governor

    A shallow embedding of [acestep/memory_manager.py] and
    [acestep/security.py], and the properties of the admission policy, the
    sliding-window limiters, the session registry and the access checks.

    Conventions of the embedding.
    - A Python [float] that the program reads from the telemetry or the
      clock, or keeps as a threshold (gigabytes of memory, seconds of
      [time.time()]), is a rational number [Q]; comparisons and subtraction
      are the exact ones. A float that comes from outside and may be
      infinite or nan (the memory limit of the environment, a requested
      duration) is a [pyfloat]. [float(n)] of an int rounds to 53 bits.
    - A Python [int] is [Z]; [len] is [Z.of_nat (length _)].
    - A Python [str] is a [string] holding its UTF-8 bytes: a character is
      ASCII exactly when its byte is below 128.
    - An f-string is the list of its fragments: the literal pieces and the
      formatted holes, in order.
    - Reads of the clock and of the memory telemetry are explicit: the time
      [now] is an argument, the telemetry is an oracle indexed by the number
      of queries made so far. *)

From Stdlib Require Import QArith ZArith Lia Lqa Sorted Ascii.
From stdpp Require Import gmap strings list.

Local Open Scope Z_scope.
Local Open Scope string_scope.

(** ** Python values shared by both modules *)

Module Py.

(** [a < b] on floats *)
Definition Qltb (a b : Q) : bool := negb (Qle_bool b a).
(** [a > b] on floats *)
Definition Qgtb (a b : Q) : bool := Qltb b a.
(** [a >= b] on floats *)
Definition Qgeb (a b : Q) : bool := Qle_bool b a.

(** [int(x)] on a float: truncation towards zero *)
Definition int_of_float (x : Q) : Z := Z.quot (Qnum x) (Zpos (Qden x)).

(** A positive int of more than 53 bits, rounded to the nearest int with 53
    significant bits, ties to the even one. *)
Definition round_to_53_bits (m : Z) : Z :=
  let e := Z.log2 m - 52 in
  let q := Z.shiftr m e in
  let r := Z.land m (Z.ones e) in
  let half := 2 ^ (e - 1) in
  let q' :=
    if ((r >? half) || ((r =? half) && Z.odd q))%Z then q + 1 else q in
  Z.shiftl q' e.

(** [float(n)] on an int: exact up to 2^53, rounded beyond. ([float]
    raises OverflowError from 2^1024 on; the model rounds on.) *)
Definition float_of_int (n : Z) : Q :=
  if (Z.abs n <=? 2 ^ 53)%Z then inject_Z n
  else inject_Z (Z.sgn n * round_to_53_bits (Z.abs n)).

(** A float that may be infinite or nan. *)
Inductive pyfloat : Type :=
| Finite (q : Q)
| PosInf
| NegInf
| NaN.
Coercion Finite : Q >-> pyfloat.
Bind Scope Q_scope with pyfloat.

(** [a < b]: false as soon as one side is nan *)
Definition flt (a b : pyfloat) : bool :=
  match a, b with
  | NaN, _ | _, NaN => false
  | Finite x, Finite y => Qltb x y
  | NegInf, Finite _ | NegInf, PosInf | Finite _, PosInf => true
  | _, _ => false
  end.
(** [a > b] *)
Definition fgt (a b : pyfloat) : bool := flt b a.
(** [min(a, b)]: [b] if [b < a], else [a] *)
Definition fmin (a b : pyfloat) : pyfloat := if flt b a then b else a.

(** [a <= b] as a proposition: nothing is compared with nan *)
Definition fle (a b : pyfloat) : Prop :=
  match a, b with
  | NaN, _ | _, NaN => False
  | NegInf, _ | _, PosInf => True
  | Finite x, Finite y => (x <= y)%Q
  | _, _ => False
  end.

(** Fragments of an f-string. *)
Inductive frag : Type :=
| Txt (s : string)            (* literal text *)
| Fixed (digits : nat) (x : Q) (* {x:.Nf} *)
| Float (x : pyfloat)         (* {x} for a float *)
| Int (n : Z).                (* {n} for an int *)

Definition message : Type := list frag.

(** [sep.join(parts)] *)
Fixpoint join (sep : string) (parts : list message) : message :=
  match parts with
  | [] => []
  | [p] => p
  | p :: rest => (p ++ Txt sep :: join sep rest)%list
  end.

End Py.

(** ** acestep/memory_manager.py *)

Module MemoryManager.
Import Py.

(** Module constants. *)
Definition MIN_FREE_RAM_GB : Q := 5.
Definition DEFAULT_MEMORY_LIMIT_GB : Q := 4.
Definition MAX_ALLOWED_MEMORY_GB : Q := 10.

(** The dict returned by [get_system_memory_info]. *)
Record MemInfo := {
  total_gb : Q;
  available_gb : Q;
  used_gb : Q;
  percent_used : Q;
  free_gb : Q
}.

(** What the functions do to the outside world, in order of occurrence. *)
Inductive event : Type :=
| GcCollect                (* one call of gc.collect *)
| CudaEmptyCache           (* torch.cuda.empty_cache() and synchronize() *)
| LinecacheClear           (* linecache.clearcache() *)
| EmergencyCleanup         (* emergency_memory_cleanup entered *)
| ForceCleanup             (* MemoryManager.force_memory_cleanup entered *)
| ProtectedRegion.         (* the body of the with statement entered *)

#[global] Instance event_eq_dec : EqDecision event.
Proof. solve_decision. Defined.

(** The world: the telemetry oracle ([telemetry k] answers the k-th query),
    the number of queries made, whether [torch.cuda.is_available()], and the
    events so far (oldest first). Log lines are not part of the world. *)
Record World := {
  telemetry : nat -> MemInfo;
  queries : nat;
  cuda_available : bool;
  trace : list event
}.

Definition IO (A : Type) : Type := World -> A * World.

(** [return a] *)
Definition ret {A} (a : A) : IO A := fun w => (a, w).

(** sequencing: run [m], then [k] on its result in the world it left *)
Definition bind {A B} (m : IO A) (k : A -> IO B) : IO B :=
  fun w => let (a, w') := m w in k a w'.

Notation "'let!' x ':=' m 'in' k" := (bind m (fun x => k))
  (at level 10, x name, m at level 100, k at level 200).
Notation "'run' m 'then' k" := (bind m (fun _ => k))
  (at level 10, m at level 100, k at level 200).

Definition emit (e : event) : IO unit :=
  fun w => (tt, {| telemetry := telemetry w; queries := queries w;
                   cuda_available := cuda_available w;
                   trace := trace w ++ [e] |}).

(** [torch.cuda.is_available()] *)
Definition cuda_is_available : IO bool :=
  fun w => (cuda_available w, w).

(** [get_system_memory_info()]: a fresh reading on every call. *)
Definition get_system_memory_info : IO MemInfo :=
  fun w => (telemetry w (queries w),
            {| telemetry := telemetry w; queries := S (queries w);
               cuda_available := cuda_available w;
               trace := trace w |}).

(** [emergency_memory_cleanup()]: three generational collections, the CUDA
    cache when there is one, the linecache, a final collection, then one
    fresh reading compared with the module constant. *)
Definition emergency_memory_cleanup : IO bool :=
  run emit EmergencyCleanup then
  run emit GcCollect then run emit GcCollect then run emit GcCollect then
  let! cuda := cuda_is_available in
  run (if cuda then emit CudaEmptyCache else ret tt) then
  run emit LinecacheClear then
  run emit GcCollect then
  let! mem := get_system_memory_info in
  ret (Qgeb (available_gb mem) MIN_FREE_RAM_GB).

(** The dataclass [MemoryConfig]. *)
Record MemoryConfig := {
  max_memory_gb : pyfloat;
  min_free_ram_gb : Q;
  gpu_memory_fraction : Q;
  max_duration_seconds : Z;
  max_batch_size : Z;
  offload_to_cpu : bool;
  offload_dit_to_cpu : bool;
  enable_lm : bool;
  aggressive_gc : bool;
  clear_cuda_cache : bool;
  pre_check_memory : bool;
  warning_threshold_gb : Q;
  critical_threshold_gb : Q
}.

(** The field defaults of the dataclass. *)
Definition MemoryConfig_defaults : MemoryConfig := {|
  max_memory_gb := DEFAULT_MEMORY_LIMIT_GB;
  min_free_ram_gb := MIN_FREE_RAM_GB;
  gpu_memory_fraction := 9 # 10;
  max_duration_seconds := 180;
  max_batch_size := 1;
  offload_to_cpu := true;
  offload_dit_to_cpu := true;
  enable_lm := false;
  aggressive_gc := true;
  clear_cuda_cache := true;
  pre_check_memory := true;
  warning_threshold_gb := 6;
  critical_threshold_gb := 4
|}.

(** [MemoryConfig.__post_init__]: runs on the fields given to the
    constructor, with one telemetry reading. *)
Definition post_init (self : MemoryConfig) : IO MemoryConfig :=
  let! mem_info := get_system_memory_info in
  let total_ram := total_gb mem_info in
  let available_ram := available_gb mem_info in
  let max_allowed := (total_ram - min_free_ram_gb self)%Q in
  let max_memory1 :=
    if fgt (max_memory_gb self) (Finite max_allowed) then Finite max_allowed
    else max_memory_gb self in
  let low := Qltb available_ram (warning_threshold_gb self) in
  ret {|
    max_memory_gb := if low then fmin max_memory1 (Finite 2) else max_memory1;
    min_free_ram_gb := min_free_ram_gb self;
    gpu_memory_fraction := gpu_memory_fraction self;
    max_duration_seconds :=
      if low then Z.min (max_duration_seconds self) 60
      else max_duration_seconds self;
    max_batch_size := 1;
    offload_to_cpu := true;
    offload_dit_to_cpu := true;
    enable_lm := if low then false else enable_lm self;
    aggressive_gc := aggressive_gc self;
    clear_cuda_cache := clear_cuda_cache self;
    pre_check_memory := pre_check_memory self;
    warning_threshold_gb := warning_threshold_gb self;
    critical_threshold_gb := critical_threshold_gb self
  |}.

(** The environment variables that [_load_config] reads, after parsing:
    [ACESTEP_MEMORY_LIMIT_GB], [MAX_CUDA_VRAM] ([None] when unset, empty or
    not a number), [ACESTEP_OFFLOAD_TO_CPU], [ACESTEP_OFFLOAD_DIT_TO_CPU],
    [ACESTEP_INIT_LM_DEFAULT], [ACESTEP_MAX_DURATION] and
    [ACESTEP_MAX_BATCH_SIZE]. *)
Record Environ := {
  env_memory_limit : option pyfloat;
  env_max_cuda_vram : option pyfloat;
  env_offload_to_cpu : option bool;
  env_offload_dit_to_cpu : option bool;
  env_init_lm_default : option bool;
  env_max_duration : option Z;
  env_max_batch_size : option Z
}.

(** [MemoryManager._load_config]: the constructor call with the fields it
    names, the defaults for the others, then [__post_init__]. *)
Definition _load_config (env : Environ) : IO MemoryConfig :=
  let memory_limit :=
    default (Finite DEFAULT_MEMORY_LIMIT_GB) (env_memory_limit env) in
  let memory_limit :=
    match env_max_cuda_vram env with
    | Some vram => fmin memory_limit vram
    | None => memory_limit
    end in
  post_init {|
    max_memory_gb := memory_limit;
    min_free_ram_gb := min_free_ram_gb MemoryConfig_defaults;
    gpu_memory_fraction := gpu_memory_fraction MemoryConfig_defaults;
    max_duration_seconds := default 120 (env_max_duration env);
    max_batch_size := default 1 (env_max_batch_size env);
    offload_to_cpu := default true (env_offload_to_cpu env);
    offload_dit_to_cpu := default true (env_offload_dit_to_cpu env);
    enable_lm := default false (env_init_lm_default env);
    aggressive_gc := aggressive_gc MemoryConfig_defaults;
    clear_cuda_cache := clear_cuda_cache MemoryConfig_defaults;
    pre_check_memory := pre_check_memory MemoryConfig_defaults;
    warning_threshold_gb := warning_threshold_gb MemoryConfig_defaults;
    critical_threshold_gb := critical_threshold_gb MemoryConfig_defaults
  |}.

(** The instance state of [MemoryManager] that the decisions use. *)
Record Manager := {
  config : MemoryConfig;
  _generation_count : Z
}.

(** [set_memory_limits()]: one telemetry reading, for the log line *)
Definition set_memory_limits : IO bool :=
  let! mem_info := get_system_memory_info in
  ret true.

(** [MemoryManager.__init__], first call *)
Definition __init__ (env : Environ) : IO Manager :=
  let! config := _load_config env in
  run set_memory_limits then
  ret {| config := config; _generation_count := 0 |}.

(** [get_current_memory_usage()["ram_available_gb"]]: one reading. *)
Definition ram_available_gb : IO Q :=
  let! mem_info := get_system_memory_info in
  ret (available_gb mem_info).

(** The five messages of [can_generate]. *)
Definition msg_blocked (available floor : Q) : message :=
  [Txt "🚫 BLOCKED: Only "; Fixed 2 available; Txt "GB RAM available. ";
   Txt "Need at least "; Float floor; Txt "GB free. ";
   Txt "Close other applications and try again."].

Definition msg_would_leave (estimated available floor : Q) : message :=
  [Txt "⚠️ Generation requires ~"; Float estimated; Txt "GB but only ";
   Fixed 2 available; Txt "GB available. ";
   Txt "Would leave less than "; Float floor; Txt "GB free. ";
   Txt "Try shorter duration or close other apps."].

Definition msg_cleanup_performed : message :=
  [Txt "⚠️ Memory was low, cleanup performed. Proceeding with caution."].

Definition msg_critical : message :=
  [Txt "🚫 Critical memory shortage. Please restart the application."].

Definition msg_low_warning (available : Q) : message :=
  [Txt "⚠️ Low memory warning: "; Fixed 2 available; Txt "GB available"].

(** [MemoryManager.can_generate] *)
Definition can_generate (self : Manager) (estimated_memory_gb : Q)
  : IO (bool * message) :=
  let! available := ram_available_gb in
  if Qltb available (min_free_ram_gb (config self)) then
    ret (false, msg_blocked available (min_free_ram_gb (config self)))
  else
    let remaining_after := (available - estimated_memory_gb)%Q in
    if Qltb remaining_after (min_free_ram_gb (config self)) then
      ret (false, msg_would_leave estimated_memory_gb available
                    (min_free_ram_gb (config self)))
    else if Qltb available (critical_threshold_gb (config self)) then
      let! ok := emergency_memory_cleanup in
      if ok then ret (true, msg_cleanup_performed)
      else ret (false, msg_critical)
    else if Qltb available (warning_threshold_gb (config self)) then
      ret (true, msg_low_warning available)
    else ret (true, []).

(** The two warnings of [validate_generation_params]. *)
Definition msg_duration (duration : pyfloat) (max_duration : Z)
    (available : Q) : message :=
  [Txt "⚠️ Duration "; Float duration; Txt "s → "; Int max_duration;
   Txt "s (memory: "; Fixed 1 available; Txt "GB free)"].

Definition msg_batch (batch_size : Z) : message :=
  [Txt "⚠️ Batch size "; Int batch_size; Txt " → 1 (memory safety)"].

(** [MemoryManager.validate_generation_params] *)
Definition validate_generation_params (self : Manager)
    (duration : pyfloat) (batch_size : Z) : IO (pyfloat * Z * message) :=
  let! available := ram_available_gb in
  let max_duration :=
    if Qltb available 6 then 60
    else if Qltb available 8 then 120
    else max_duration_seconds (config self) in
  let '(duration, warnings) :=
    if fgt duration (Finite (inject_Z max_duration))
    then (Finite (float_of_int max_duration),
          [msg_duration duration max_duration available])
    else (duration, []) in
  let '(batch_size, warnings) :=
    if (batch_size >? 1)%Z
    then (1, (warnings ++ [msg_batch batch_size])%list)
    else (batch_size, warnings) in
  let warning_msg :=
    match warnings with [] => [] | _ => join " | " warnings end in
  ret (duration, batch_size, warning_msg).

(** [MemoryManager.force_memory_cleanup]: nothing at all unless
    [aggressive_gc]; otherwise the collections, the counter, and the deep
    cleanup on every fifth count. *)
Definition force_memory_cleanup (self : Manager) : IO Manager :=
  run emit ForceCleanup then
  if negb (aggressive_gc (config self)) then ret self
  else
    run emit GcCollect then run emit GcCollect then run emit GcCollect then
    let! cuda := cuda_is_available in
    run (if clear_cuda_cache (config self) && cuda
         then emit CudaEmptyCache else ret tt) then
    run emit GcCollect then
    let self' := {| config := config self;
                    _generation_count := _generation_count self + 1 |} in
    if (_generation_count self' mod 5 =? 0)%Z
    then run emergency_memory_cleanup then ret self'
    else ret self'.

(** Exceptions, and how a call ends. *)
Inductive exn : Type :=
| MemoryError (m : message)
| UserError (what : string).   (* whatever the protected region raises *)

Inductive outcome (A : Type) : Type :=
| Returned (a : A)
| Raised (e : exn).
Arguments Returned {A} a.
Arguments Raised {A} e.

(** The body of a [with manager.generation_context(...)] statement, as the
    manager sees it: from the world at entry, the events it causes, the
    telemetry queries it makes, and how it ends. *)
Record Region (A : Type) := {
  region_events : World -> list event;
  region_queries : World -> nat;
  region_outcome : World -> outcome A
}.
Arguments region_events {A} r w.
Arguments region_queries {A} r w.
Arguments region_outcome {A} r w.

Definition enter_region {A} (body : Region A) : IO (outcome A) :=
  run emit ProtectedRegion then
  fun w => (region_outcome body w,
            {| telemetry := telemetry w;
               queries := (queries w + region_queries body w)%nat;
               cuda_available := cuda_available w;
               trace := trace w ++ region_events body w |}).

(** [with self.generation_context(estimated_memory_gb): body]. The check
    stands before the [try]; the [finally] runs the cleanup after the body
    whether it returned or raised, and the exception then propagates. *)
Definition generation_context {A} (self : Manager) (estimated_memory_gb : Q)
    (body : Region A) : IO (outcome A * Manager) :=
  let! check := can_generate self estimated_memory_gb in
  let '(can_proceed, message) := check in
  if negb can_proceed then ret (Raised (MemoryError message), self)
  else
    let! r := enter_region body in
    let! self' := force_memory_cleanup self in
    ret (r, self').

(** [MemoryManager.check_memory_available]: the alias of [can_generate] *)
Definition check_memory_available (self : Manager) (required_gb : Q)
  : IO (bool * message) :=
  can_generate self required_gb.

(** The dict returned by [get_generation_constraints]. *)
Record Constraints := {
  c_max_duration_seconds : Z;
  c_max_batch_size : Z;
  c_lm_enabled : bool;
  c_offload_to_cpu : bool;
  c_offload_dit_to_cpu : bool;
  c_memory_limit_gb : pyfloat;
  c_available_memory_gb : Q;
  c_memory_tier : string;
  c_min_free_ram_gb : Q
}.

(** [MemoryManager.get_generation_constraints] *)
Definition get_generation_constraints (self : Manager) : IO Constraints :=
  let! available := ram_available_gb in
  let '(max_duration, tier) :=
    if Qltb available 6 then (60, "critical")
    else if Qltb available 8 then (120, "low")
    else if Qltb available 10 then (180, "normal")
    else (max_duration_seconds (config self), "optimal") in
  ret {|
    c_max_duration_seconds := max_duration;
    c_max_batch_size := 1;
    c_lm_enabled := enable_lm (config self) && Qgtb available 8;
    c_offload_to_cpu := true;
    c_offload_dit_to_cpu := true;
    c_memory_limit_gb := max_memory_gb (config self);
    c_available_memory_gb := available;
    c_memory_tier := tier;
    c_min_free_ram_gb := min_free_ram_gb (config self)
  |}.

(** What [get_status] reports besides the configuration: the reading it
    took, the constraints (taken from a second reading), the health flag and
    the counter. *)
Record Status := {
  s_ram_available_gb : Q;
  s_constraints : Constraints;
  s_healthy : bool;
  s_status : string;
  s_generation_count : Z
}.

(** [MemoryManager.get_status] *)
Definition get_status (self : Manager) : IO Status :=
  let! available := ram_available_gb in
  let! constraints := get_generation_constraints self in
  let is_healthy := Qgeb available (min_free_ram_gb (config self)) in
  ret {|
    s_ram_available_gb := available;
    s_constraints := constraints;
    s_healthy := is_healthy;
    s_status := if is_healthy then "✅ Healthy" else "⚠️ Low Memory";
    s_generation_count := _generation_count self
  |}.

(** [memory_limit_decorator(required_gb)(func)(...)], on the manager that
    [MemoryManager()] returns: the check, the function, and the cleanup in
    the [finally]. *)
Definition memory_limit_decorator {A} (manager : Manager) (required_gb : Q)
    (func : Region A) : IO (outcome A * Manager) :=
  let! check := can_generate manager required_gb in
  let '(can_proceed, msg) := check in
  if negb can_proceed then ret (Raised (MemoryError msg), manager)
  else
    let! result := enter_region func in
    let! manager' := force_memory_cleanup manager in
    ret (result, manager').

(** [check_startup_memory()] *)
Definition check_startup_memory : IO bool :=
  let! mem_info := get_system_memory_info in
  let available := available_gb mem_info in
  if Qltb available MIN_FREE_RAM_GB then ret false else ret true.

End MemoryManager.

(** ** acestep/security.py *)

Module Security.
Import Py.

(** *** What the module uses of [str] *)

Definition bytes (l : list nat) : string :=
  fold_right (fun n s => String (Ascii.ascii_of_nat n) s) "" l.

(** The characters for which [str.isspace()] holds, in UTF-8: U+0009 to
    U+000D, U+001C to U+0020, U+0085, U+00A0, U+1680, U+2000 to U+200A,
    U+2028, U+2029, U+202F, U+205F, U+3000. *)
Definition whitespace : list string :=
  map bytes
    [[9]; [10]; [11]; [12]; [13]; [28]; [29]; [30]; [31]; [32];
     [194; 133]; [194; 160]; [225; 154; 128];
     [226; 128; 128]; [226; 128; 129]; [226; 128; 130]; [226; 128; 131];
     [226; 128; 132]; [226; 128; 133]; [226; 128; 134]; [226; 128; 135];
     [226; 128; 136]; [226; 128; 137]; [226; 128; 138];
     [226; 128; 168]; [226; 128; 169]; [226; 128; 175];
     [226; 129; 159]; [227; 128; 128]]%nat.

(** the number of bytes of the member of [ws] that [s] starts with *)
Definition leading (ws : list string) (s : string) : option nat :=
  match List.find (fun w => String.prefix w s) ws with
  | Some w => Some (String.length w)
  | None => None
  end.

(** drop the members of [ws] that [s] starts with; [skip] counts the bytes
    of the current one still to drop *)
Fixpoint lstrip_aux (ws : list string) (skip : nat) (s : string) : string :=
  match s with
  | EmptyString => EmptyString
  | String c s' =>
      match skip with
      | S k => lstrip_aux ws k s'
      | O => match leading ws s with
             | Some (S k) => lstrip_aux ws k s'
             | _ => s
             end
      end
  end.

(** [s.strip()]: UTF-8 is self-synchronising, so the trailing characters are
    the leading ones of the reversed string. *)
Definition strip (s : string) : string :=
  String.rev
    (lstrip_aux (map String.rev whitespace) 0
       (String.rev (lstrip_aux whitespace 0 s))).

(** [s.startswith(p)] *)
Definition startswith (s p : string) : bool := String.prefix p s.

(** [s[n:]] for an [s] whose first [n] characters are ASCII *)
Definition slice_from (n : nat) (s : string) : string :=
  String.substring n (String.length s - n) s.

(** [s.isascii()] *)
Fixpoint is_ascii (s : string) : bool :=
  match s with
  | EmptyString => true
  | String c s' => (Ascii.nat_of_ascii c <? 128)%nat && is_ascii s'
  end.

Inductive exn : Type :=
| IndexError     (* list index out of range *)
| TypeError.     (* comparing strings with non-ASCII characters *)

Inductive result (A : Type) : Type :=
| Ok (a : A)
| Raise (e : exn).
Arguments Ok {A} a.
Arguments Raise {A} e.

(** [secrets.compare_digest(a, b)] on two [str]: [a == b], and a
    [TypeError] when either holds a non-ASCII character. *)
Definition compare_digest (a b : string) : result bool :=
  if is_ascii a && is_ascii b then Ok (String.eqb a b) else Raise TypeError.

(** [s.split(sep)] for a one-character separator: the pieces between the
    separators, at least one piece *)
Fixpoint split (sep : Ascii.ascii) (s : string) : list string :=
  match s with
  | EmptyString => [EmptyString]
  | String c s' =>
      if Ascii.eqb c sep then EmptyString :: split sep s'
      else match split sep s' with
           | piece :: pieces => String c piece :: pieces
           | [] => [String c EmptyString]
           end
  end.

(** [max(l)] of a non-empty list *)
Definition max_list (t : Q) (ts : list Q) : Q :=
  fold_left (fun m x => if Qltb m x then x else m) ts t.

(** [max(0, x)], [min(l)] of a non-empty list *)
Definition max0 (x : Q) : Q := if Qgtb x 0 then x else 0%Q.

Definition min_list (t : Q) (ts : list Q) : Q :=
  fold_left (fun m x => if Qltb x m then x else m) ts t.

(** *** class RateLimiter *)

Module RateLimiter.

Record t := {
  max_requests : Z;
  window_seconds : Z;
  _requests : gmap string (list Q)     (* a defaultdict(list) *)
}.

Definition __init__ (max_requests window_seconds : Z) : t :=
  {| max_requests := max_requests; window_seconds := window_seconds;
     _requests := ∅ |}.

(** [self._requests[identifier]] read from the defaultdict *)
Definition requests_of (self : t) (identifier : string) : list Q :=
  default [] (_requests self !! identifier).

Definition set_requests (self : t) (identifier : string) (l : list Q) : t :=
  {| max_requests := max_requests self;
     window_seconds := window_seconds self;
     _requests := <[identifier := l]> (_requests self) |}.

(** [is_allowed], with [now = time.time()] *)
Definition is_allowed (self : t) (identifier : string) (now : Q)
  : (bool * Z) * t :=
  let window_start := (now - inject_Z (window_seconds self))%Q in
  let live :=
    List.filter (fun t => Qgtb t window_start) (requests_of self identifier) in
  let current_count := Z.of_nat (length live) in
  let remaining := (max_requests self - current_count)%Z in
  if (current_count >=? max_requests self)%Z
  then ((false, 0%Z), set_requests self identifier live)
  else ((true, (remaining - 1)%Z),
        set_requests self identifier (live ++ [now])%list).

(** [get_reset_time], with [now = time.time()]; the dict is only read *)
Definition get_reset_time (self : t) (identifier : string) (now : Q) : Q :=
  match _requests self !! identifier with
  | None => 0%Q
  | Some [] => 0%Q
  | Some (t :: ts) =>
      let oldest := min_list t ts in
      let reset_at := (oldest + inject_Z (window_seconds self))%Q in
      max0 (reset_at - now)%Q
  end.

(** [not v or max(v) < window_start] *)
Definition expired_entry (window_start : Q) (v : list Q) : bool :=
  match v with
  | [] => true
  | t :: ts => Qltb (max_list t ts) window_start
  end.

(** [cleanup], with [now = time.time()] *)
Definition cleanup (self : t) (now : Q) : t :=
  let window_start := (now - inject_Z (window_seconds self))%Q in
  {| max_requests := max_requests self;
     window_seconds := window_seconds self;
     _requests :=
       filter (fun kv => expired_entry window_start (snd kv) = false)
         (_requests self) |}.

End RateLimiter.

(** *** class GenerationLimiter *)

Module GenerationLimiter.

Record t := {
  max_generations : Z;
  window_seconds : Z;
  _generations : gmap string (list Q)   (* a defaultdict(list) *)
}.

Definition __init__ (max_generations window_hours : Z) : t :=
  {| max_generations := max_generations;
     window_seconds := (window_hours * 3600)%Z;
     _generations := ∅ |}.

Definition generations_of (self : t) (identifier : string) : list Q :=
  default [] (_generations self !! identifier).

Definition set_generations (self : t) (identifier : string) (l : list Q)
  : t :=
  {| max_generations := max_generations self;
     window_seconds := window_seconds self;
     _generations := <[identifier := l]> (_generations self) |}.

Definition msg_limit (max_generations reset_minutes : Z) : message :=
  [Txt "Limite de geração atingido ("; Int max_generations;
   Txt "/hora). Tente novamente em "; Int reset_minutes; Txt " minutos."].

(** [can_generate], with [now = time.time()]. The pruned list is stored
    before the count is looked at; [l[0]] of an empty list raises. *)
Definition can_generate (self : t) (identifier : string) (now : Q)
  : result (bool * Z * message) * t :=
  let window_start := (now - inject_Z (window_seconds self))%Q in
  let live :=
    List.filter (fun t => Qgtb t window_start)
      (generations_of self identifier) in
  let self' := set_generations self identifier live in
  let current_count := Z.of_nat (length live) in
  let remaining := (max_generations self - current_count)%Z in
  if (current_count >=? max_generations self)%Z then
    match live with
    | [] => (Raise IndexError, self')
    | first :: _ =>
        let reset_seconds :=
          (first + inject_Z (window_seconds self) - now)%Q in
        let reset_minutes := (int_of_float (reset_seconds / 60) + 1)%Z in
        (Ok (false, 0%Z, msg_limit (max_generations self) reset_minutes),
         self')
    end
  else (Ok (true, remaining, []), self').

(** [record_generation], with [now = time.time()] *)
Definition record_generation (self : t) (identifier : string) (now : Q) : t :=
  set_generations self identifier (generations_of self identifier ++ [now])%list.

End GenerationLimiter.

(** *** class Session, class SessionManager *)

Module SessionManager.

Record Session := {
  session_id : string;
  username : string;
  ip_address : string;
  created_at : Q;
  last_activity : Q;
  generation_count : Z
}.

(** [session.last_activity = now] *)
Definition touch (session : Session) (now : Q) : Session :=
  {| session_id := session_id session;
     username := username session;
     ip_address := ip_address session;
     created_at := created_at session;
     last_activity := now;
     generation_count := generation_count session |}.

Record t := {
  timeout_seconds : Z;
  _sessions : gmap string Session
}.

Definition __init__ (timeout_minutes : Z) : t :=
  {| timeout_seconds := (timeout_minutes * 60)%Z; _sessions := ∅ |}.

Definition set_sessions (self : t) (m : gmap string Session) : t :=
  {| timeout_seconds := timeout_seconds self; _sessions := m |}.

(** [now - s.last_activity > self.timeout_seconds] *)
Definition idle_too_long (self : t) (now : Q) (s : Session) : bool :=
  Qgtb (now - last_activity s)%Q (inject_Z (timeout_seconds self)).

(** [create_session], with [token = secrets.token_urlsafe(32)] and
    [now = time.time()] *)
Definition create_session (self : t) (username ip_address token : string)
    (now : Q) : string * t :=
  let session :=
    {| session_id := token; username := username; ip_address := ip_address;
       created_at := now; last_activity := now; generation_count := 0 |} in
  (token, set_sessions self (<[token := session]> (_sessions self))).

(** [validate_session], with [now = time.time()]. The session returned is
    the object stored in the dict, so the store holds the touched record. *)
Definition validate_session (self : t) (session_id : string) (now : Q)
  : option Session * t :=
  if String.eqb session_id "" then (None, self)
  else
    match _sessions self !! session_id with
    | None => (None, self)
    | Some session =>
        if (timeout_seconds self >? 0)%Z && idle_too_long self now session
        then (None, set_sessions self (delete session_id (_sessions self)))
        else
          let session' := touch session now in
          (Some session',
           set_sessions self (<[session_id := session']> (_sessions self)))
    end.

(** [end_session] *)
Definition end_session (self : t) (session_id : string) : t :=
  set_sessions self (delete session_id (_sessions self)).

(** [cleanup_expired], with [now = time.time()] *)
Definition cleanup_expired (self : t) (now : Q) : t :=
  if (timeout_seconds self <=? 0)%Z then self
  else
    set_sessions self
      (filter (fun kv => idle_too_long self now (snd kv) = false)
         (_sessions self)).

End SessionManager.

(** *** class SecurityConfig, class SecurityManager *)

Module SecurityManager.

Record SecurityConfig := {
  auth_enabled : bool;
  auth_username : string;
  auth_password : string;
  api_key : option string;
  rate_limit_per_minute : Z;
  generation_limit_per_hour : Z;
  localhost_only : bool;
  allowed_ips : gset string;
  blocked_ips : gset string;
  session_timeout_minutes : Z;
  log_access : bool;
  log_auth_failures : bool
}.

Definition default_config : SecurityConfig := {|
  auth_enabled := true;
  auth_username := "admin";
  auth_password := "music2026";
  api_key := None;
  rate_limit_per_minute := 30;
  generation_limit_per_hour := 20;
  localhost_only := false;
  allowed_ips := ∅;
  blocked_ips := ∅;
  session_timeout_minutes := 60;
  log_access := true;
  log_auth_failures := true
|}.

(** truthiness of an [Optional[str]] *)
Definition str_truthy (s : option string) : bool :=
  match s with
  | None => false
  | Some s => negb (String.eqb s "")
  end.

(** [verify_api_key] *)
Definition verify_api_key (config : SecurityConfig)
    (provided_key : option string) : result bool :=
  if negb (str_truthy (api_key config)) then Ok true
  else
    match provided_key, api_key config with
    | Some provided, Some key =>
        if String.eqb provided "" then Ok false
        else
          let provided :=
            if startswith provided "Bearer " then slice_from 7 provided
            else provided in
          compare_digest provided key
    | _, _ => Ok false
    end.

(** the tuple [('127.0.0.1', 'localhost', '::1')] *)
Definition loopback : list string := ["127.0.0.1"; "localhost"; "::1"].

Definition is_loopback (ip : string) : bool :=
  existsb (String.eqb ip) loopback.

(** [check_ip_access] *)
Definition check_ip_access (config : SecurityConfig) (ip_address : string)
  : bool * string :=
  let ip := strip ip_address in
  if bool_decide (ip ∈ blocked_ips config) then (false, "Acesso bloqueado")
  else if localhost_only config && negb (is_loopback ip)
  then (false, "Apenas acesso local permitido")
  else if negb (bool_decide (allowed_ips config = ∅))
          && negb (bool_decide (ip ∈ allowed_ips config))
  then (false, "IP não autorizado")
  else (true, "").

(** [str_to_set] of [SecurityConfig.from_env] *)
Definition str_to_set (s : string) : gset string :=
  if String.eqb s "" then ∅
  else
    list_to_set
      (List.filter (fun ip => negb (String.eqb ip ""))
         (map strip (split ","%char s))).

(** The instance: the configuration and the three components. *)
Record t := {
  config : SecurityConfig;
  rate_limiter : RateLimiter.t;
  generation_limiter : GenerationLimiter.t;
  session_manager : SessionManager.t
}.

(** [SecurityManager.__init__], first call, on the configuration read
    from the environment *)
Definition __init__ (config : SecurityConfig) : t :=
  {| config := config;
     rate_limiter := RateLimiter.__init__ (rate_limit_per_minute config) 60;
     generation_limiter :=
       GenerationLimiter.__init__ (generation_limit_per_hour config) 1;
     session_manager :=
       SessionManager.__init__ (session_timeout_minutes config) |}.

(** [get_gradio_auth] *)
Definition get_gradio_auth (config : SecurityConfig)
  : option (string * string) :=
  if negb (auth_enabled config) then None
  else Some (auth_username config, auth_password config).

(** [verify_gradio_auth] *)
Definition verify_gradio_auth (config : SecurityConfig)
    (username password : string) : bool :=
  if negb (auth_enabled config) then true
  else String.eqb username (auth_username config)
       && String.eqb password (auth_password config).

Definition msg_rate_limit (reset_time : Q) : message :=
  [Txt "Rate limit excedido. Tente novamente em ";
   Int (int_of_float reset_time); Txt " segundos."].

(** [check_rate_limit]: [now] is the clock as [is_allowed] reads it,
    [later] as [get_reset_time] reads it after a denial. *)
Definition check_rate_limit (self : t) (ip_address : string) (now later : Q)
  : (bool * Z * message) * t :=
  let '((allowed, remaining), limiter) :=
    RateLimiter.is_allowed (rate_limiter self) ip_address now in
  let self' :=
    {| config := config self; rate_limiter := limiter;
       generation_limiter := generation_limiter self;
       session_manager := session_manager self |} in
  if negb allowed then
    let reset_time := RateLimiter.get_reset_time limiter ip_address later in
    ((false, 0%Z, msg_rate_limit reset_time), self')
  else ((true, remaining, []), self').

(** [check_generation_limit] *)
Definition check_generation_limit (self : t) (identifier : string) (now : Q)
  : result (bool * Z * message) * t :=
  let (r, limiter) :=
    GenerationLimiter.can_generate (generation_limiter self) identifier now in
  (r, {| config := config self; rate_limiter := rate_limiter self;
         generation_limiter := limiter;
         session_manager := session_manager self |}).

(** [record_generation] *)
Definition record_generation (self : t) (identifier : string) (now : Q) : t :=
  {| config := config self; rate_limiter := rate_limiter self;
     generation_limiter :=
       GenerationLimiter.record_generation (generation_limiter self)
         identifier now;
     session_manager := session_manager self |}.

(** What the decorators look at in a request: the [Authorization] header
    ([None] without [headers] or without the header) and [client.host]
    ([None] without [client] or without [host]). *)
Record Request := {
  authorization : option string;
  client_host : option string
}.

(** How a decorated call ends. *)
Inductive call (A : Type) : Type :=
| Ran (a : A)                       (* the function was called *)
| PermissionError (msg : string)
| RateLimited (msg : message)       (* [Exception(msg)] of [rate_limited] *)
| Failed (e : exn).                 (* an exception of the checks *)
Arguments Ran {A} a.
Arguments PermissionError {A} msg.
Arguments RateLimited {A} msg.
Arguments Failed {A} e.

(** [require_auth(func)(...)]: [request] is the keyword argument or the
    first positional one, [None] when there is none or it is falsy;
    [func] stands for the call of the wrapped function. *)
Definition require_auth {A} (config : SecurityConfig)
    (request : option Request) (func : A) : call A :=
  match request with
  | None => Ran func
  | Some request =>
      match verify_api_key config (authorization request) with
      | Raise e => Failed e
      | Ok false => PermissionError "Invalid or missing API key"
      | Ok true =>
          match client_host request with
          | None => Ran func
          | Some host =>
              let (allowed, msg) := check_ip_access config host in
              if negb allowed then PermissionError msg else Ran func
          end
      end
  end.

(** [rate_limited(func)(...)] *)
Definition rate_limited {A} (self : t) (request : option Request)
    (now later : Q) (func : A) : call A * t :=
  let client_ip :=
    match request with
    | Some request => default "unknown" (client_host request)
    | None => "unknown"
    end in
  let '((allowed, _, msg), self') :=
    check_rate_limit self client_ip now later in
  if negb allowed then (RateLimited msg, self') else (Ran func, self').

(** [generate_api_key()], with [token = secrets.token_urlsafe(32)] *)
Definition generate_api_key (token : string) : string :=
  "sk-acestep-" ++ token.

(** [hash_password(password)], with [salt = secrets.token_hex(16)];
    [sha256_hex b] stands for [hashlib.sha256(b).hexdigest()]. *)
Definition hash_password (sha256_hex : string -> string)
    (salt password : string) : string :=
  salt ++ ":" ++ sha256_hex (salt ++ password).

(** [verify_password_hash(password, hashed)]: every exception of the body
    is caught and gives [False]. *)
Definition verify_password_hash (sha256_hex : string -> string)
    (password hashed : string) : bool :=
  match split ":"%char hashed with
  | [salt; expected_hash] =>
      match compare_digest (sha256_hex (salt ++ password)) expected_hash with
      | Ok valid => valid
      | Raise _ => false
      end
  | _ => false
  end.

End SecurityManager.

End Security.

(** * Notions used in the statements *)

(** ** For the admission policy *)

Module MemoryManagerDefs.
Import Py MemoryManager.
Local Open Scope list_scope.

(** the reading that the next telemetry query returns *)
Definition next_available (w : World) : Q :=
  available_gb (telemetry w (queries w)).

(** the world after that query *)
Definition after_query (w : World) : World :=
  snd (get_system_memory_info w).

(** A manager with the default thresholds: floor 5, warning 6, critical 4. *)
Definition default_manager : Manager :=
  {| config := MemoryConfig_defaults; _generation_count := 0 |}.

(** A world whose every reading reports [available] GB, without CUDA. *)
Definition steady_world (available : Q) : World :=
  {| telemetry := fun _ =>
       {| total_gb := 16; available_gb := available;
          used_gb := 16 - available; percent_used := 50; free_gb := 4 |};
     queries := 0; cuda_available := false; trace := [] |}.

(** A configuration whose critical threshold (6) lies above its floor
    (5). *)
Definition high_critical_manager : Manager :=
  {| config :=
       {| max_memory_gb := 4; min_free_ram_gb := 5;
          gpu_memory_fraction := 9 # 10; max_duration_seconds := 180;
          max_batch_size := 1; offload_to_cpu := true;
          offload_dit_to_cpu := true; enable_lm := false;
          aggressive_gc := true; clear_cuda_cache := true;
          pre_check_memory := true; warning_threshold_gb := 7;
          critical_threshold_gb := 6 |};
     _generation_count := 0 |}.

(** A world that reports 5.5 GB at the first query and 4 GB afterwards. *)
Definition dropping_world : World :=
  {| telemetry := fun k =>
       {| total_gb := 16;
          available_gb := match k with O => 11 # 2 | _ => 4 end;
          used_gb := 10; percent_used := 60; free_gb := 4 |};
     queries := 0; cuda_available := false; trace := [] |}.

(** A configuration whose floor (3) lies below the module constant
    [MIN_FREE_RAM_GB] and below its critical threshold (4). *)
Definition low_floor_manager : Manager :=
  {| config :=
       {| max_memory_gb := 4; min_free_ram_gb := 3;
          gpu_memory_fraction := 9 # 10; max_duration_seconds := 180;
          max_batch_size := 1; offload_to_cpu := true;
          offload_dit_to_cpu := true; enable_lm := false;
          aggressive_gc := true; clear_cuda_cache := true;
          pre_check_memory := true; warning_threshold_gb := 6;
          critical_threshold_gb := 4 |};
     _generation_count := 0 |}.

(** the components of the triple that [validate_generation_params]
    returns *)
Definition returned_duration (r : pyfloat * Z * message) : pyfloat :=
  fst (fst r).
Definition returned_batch_size (r : pyfloat * Z * message) : Z := snd (fst r).
Definition returned_warning (r : pyfloat * Z * message) : message := snd r.

(** how often [e] occurs in a trace *)
Definition count (e : event) (l : list event) : nat :=
  count_occ event_eq_dec l e.

(** the events of one [emergency_memory_cleanup] *)
Definition emergency_events (w : World) : list event :=
  [EmergencyCleanup; GcCollect; GcCollect; GcCollect] ++
  (if cuda_available w then [CudaEmptyCache] else []) ++
  [LinecacheClear; GcCollect].

(** the next [force_memory_cleanup] runs the deep cleanup *)
Definition deep_due (self : Manager) : bool :=
  aggressive_gc (config self) && ((_generation_count self + 1) mod 5 =? 0)%Z.

(** the events of one [force_memory_cleanup] *)
Definition force_events (self : Manager) (w : World) : list event :=
  ForceCleanup ::
  if aggressive_gc (config self) then
    [GcCollect; GcCollect; GcCollect] ++
    (if clear_cuda_cache (config self) && cuda_available w
     then [CudaEmptyCache] else []) ++
    [GcCollect] ++
    (if deep_due self then emergency_events w else [])
  else [].

(** the world in which the body starts: the admission check is over and
    the region is marked as entered *)
Definition region_entry (w1 : World) : World :=
  snd (emit ProtectedRegion w1).

(** [n] cleanups in a row, as [n] regions that end one after the other *)
Fixpoint cleanups (n : nat) (self : Manager) (w : World) : Manager * World :=
  match n with
  | O => (self, w)
  | S k =>
      let (self', w') := force_memory_cleanup self w in cleanups k self' w'
  end.

(** A body that raises at once. *)
Definition failing_body : Region unit :=
  {| region_events := fun _ => []; region_queries := fun _ => O;
     region_outcome := fun _ => Raised (UserError "generation failed") |}.

End MemoryManagerDefs.

(** ** For the limiters, the sessions and the access checks *)

Module SecurityDefs.
Import Py Security.
Local Open Scope list_scope.

Module RL := RateLimiter.
Module GL := GenerationLimiter.

(** [t] is inside the window that ends at [now] *)
Definition live (window : Z) (now t : Q) : Prop :=
  (now - inject_Z window < t)%Q.

(** the list comprehension [[t for t in l if t > now - window]] *)
Definition prune (window : Z) (now : Q) (l : list Q) : list Q :=
  List.filter (fun t => Qgtb t (now - inject_Z window)%Q) l.

(** The spec's [resetTime], in the spec's words: "time until the oldest live
    event ages out (0 if no events)", the live events being those newer than
    [now - window]. *)
Definition time_until_oldest_live_ages_out (self : RL.t) (id : string)
    (now : Q) : Q :=
  match prune (RL.window_seconds self) now (RL.requests_of self id) with
  | [] => 0%Q
  | t :: ts => (min_list t ts + inject_Z (RL.window_seconds self) - now)%Q
  end.

(** Two requests of "X", at 0 s and at 50 s, in a 60 s window. *)
Definition two_requests : RL.t :=
  snd (RL.is_allowed (snd (RL.is_allowed (RL.__init__ 5 60) "X" 0)) "X" 50).

(** One generation of "X" recorded at 0 s under a limit of one per hour. *)
Definition one_generation : GL.t :=
  GL.record_generation (GL.__init__ 1 1) "X" 0.

(** The two limiters hold the same configuration and the same table. *)
Definition same_history (rl : RL.t) (gl : GL.t) : Prop :=
  RL.max_requests rl = GL.max_generations gl /\
  RL.window_seconds rl = GL.window_seconds gl /\
  RL._requests rl = GL._generations gl.

(** The use the module intends: [check_generation_limit], then, when it
    allowed, [record_generation]; here at the same clock reading. *)
Definition check_then_record (self : GL.t) (id : string) (now : Q)
  : result (bool * Z * message) * GL.t :=
  let (r, self') := GL.can_generate self id now in
  match r with
  | Ok (true, _, _) => (r, GL.record_generation self' id now)
  | _ => (r, self')
  end.

(** A run of checks, each recorded when allowed: [(c, r)] is a check at
    time [c] whose generation is recorded at time [r]. *)
Fixpoint check_record_all (self : GL.t) (id : string) (steps : list (Q * Q))
  : list (result (bool * Z * message)) * GL.t :=
  match steps with
  | [] => ([], self)
  | (c, r) :: rest =>
      let (d, self1) := GL.can_generate self id c in
      let self2 :=
        match d with
        | Ok (true, _, _) => GL.record_generation self1 id r
        | _ => self1
        end in
      let (ds, self3) := check_record_all self2 id rest in
      (d :: ds, self3)
  end.

(** A limit of one per hour, checked at 0 s and again at 1 s with no
    [record_generation] in between; and the rate limiter with the same
    limit and window, asked at the same times. *)
Definition unrecorded_first : result (bool * Z * message) * GL.t :=
  GL.can_generate (GL.__init__ 1 1) "X" 0.
Definition unrecorded_second : result (bool * Z * message) * GL.t :=
  GL.can_generate (snd unrecorded_first) "X" 1.
Definition rate_first : (bool * Z) * RL.t :=
  RL.is_allowed (RL.__init__ 1 3600) "X" 0.
Definition rate_second : (bool * Z) * RL.t :=
  RL.is_allowed (snd rate_first) "X" 1.

Module SM := SessionManager.

(** No session is stored under the empty id: [create_session] is the only
    insertion and its ids are the non-empty tokens of
    [secrets.token_urlsafe]. *)
Definition well_keyed (self : SM.t) : Prop := SM._sessions self !! "" = None.

(** [now - last_activity <= timeout], a timeout that is not positive
    meaning that the session never expires *)
Definition visible (self : SM.t) (now : Q) (s : SM.Session) : Prop :=
  SM.timeout_seconds self <= 0 \/
  (now - SM.last_activity s <= inject_Z (SM.timeout_seconds self))%Q.

(** Scenario D: a timeout of 60 minutes and a session created at 0 s. *)
Definition one_session : SM.t :=
  snd (SM.create_session (SM.__init__ 60) "admin" "127.0.0.1" "token" 0).

Module SEC := SecurityManager.

(** A configuration with the address 10.0.0.7 on both lists. *)
Definition both_lists : SEC.SecurityConfig :=
  {| SEC.auth_enabled := true; SEC.auth_username := "admin";
     SEC.auth_password := "music2026"; SEC.api_key := None;
     SEC.rate_limit_per_minute := 30; SEC.generation_limit_per_hour := 20;
     SEC.localhost_only := false;
     SEC.allowed_ips := {["10.0.0.7"; "10.0.0.8"]};
     SEC.blocked_ips := {["10.0.0.7"]};
     SEC.session_timeout_minutes := 60;
     SEC.log_access := true; SEC.log_auth_failures := true |}.

(** A configuration in localhost-only mode, with empty lists. *)
Definition localhost_only_config : SEC.SecurityConfig :=
  {| SEC.auth_enabled := true; SEC.auth_username := "admin";
     SEC.auth_password := "music2026"; SEC.api_key := None;
     SEC.rate_limit_per_minute := 30; SEC.generation_limit_per_hour := 20;
     SEC.localhost_only := true;
     SEC.allowed_ips := ∅; SEC.blocked_ips := ∅;
     SEC.session_timeout_minutes := 60;
     SEC.log_access := true; SEC.log_auth_failures := true |}.

(** A decimal number of one to three digits, at most 255. *)
Definition is_digit (c : ascii) : bool :=
  (48 <=? nat_of_ascii c)%nat && (nat_of_ascii c <=? 57)%nat.

Fixpoint decimal (s : string) (acc : nat) : option nat :=
  match s with
  | EmptyString => Some acc
  | String c s' =>
      if is_digit c then decimal s' (10 * acc + (nat_of_ascii c - 48))%nat
      else None
  end.

Definition octet (s : string) : bool :=
  negb (String.eqb s "") && (String.length s <=? 3)%nat &&
  match decimal s 0 with
  | Some n => (n <=? 255)%nat
  | None => false
  end.

(** In the words of C9, a loopback address: an IPv4 address of the block
    127.0.0.0/8 in dotted decimal, the IPv6 address ::1, or the host name
    localhost. *)
Definition loopback_address (ip : string) : bool :=
  match split "."%char ip with
  | [a; b; c; d] => String.eqb a "127" && octet b && octet c && octet d
  | _ => false
  end
  || String.eqb ip "::1" || String.eqb ip "localhost".

(** the key that is compared: the provided one without its "Bearer "
    prefix, when it has one *)
Definition bearer_stripped (provided : string) : string :=
  if startswith provided "Bearer " then slice_from 7 provided else provided.

(** a key is configured: [api_key] is neither [None] nor empty *)
Definition configured (config : SEC.SecurityConfig) (key : string) : Prop :=
  SEC.api_key config = Some key /\ key <> "".

(** The configuration of [ACESTEP_API_KEY=clé]. *)
Definition accented_key : SEC.SecurityConfig :=
  {| SEC.auth_enabled := true; SEC.auth_username := "admin";
     SEC.auth_password := "music2026"; SEC.api_key := Some "clé";
     SEC.rate_limit_per_minute := 30; SEC.generation_limit_per_hour := 20;
     SEC.localhost_only := false; SEC.allowed_ips := ∅;
     SEC.blocked_ips := ∅; SEC.session_timeout_minutes := 60;
     SEC.log_access := true; SEC.log_auth_failures := true |}.

(** A run of [is_allowed] for one identity at the given clock readings. *)
Fixpoint is_allowed_all (self : RL.t) (id : string) (times : list Q)
  : list (bool * Z) * RL.t :=
  match times with
  | [] => ([], self)
  | now :: rest =>
      let (d, self1) := RL.is_allowed self id now in
      let (ds, self2) := is_allowed_all self1 id rest in
      (d :: ds, self2)
  end.

(** No identity has more timestamps stored than the limit. *)
Definition bounded (self : RL.t) : Prop :=
  forall id, Z.of_nat (length (RL.requests_of self id)) <= RL.max_requests self.

(** [c not in s] *)
Fixpoint no_char (c : Ascii.ascii) (s : string) : bool :=
  match s with
  | EmptyString => true
  | String c' s' => negb (Ascii.eqb c' c) && no_char c s'
  end.

(** The default configuration with its two limits set to one. *)
Definition one_per_window : SEC.SecurityConfig :=
  {| SEC.auth_enabled := true; SEC.auth_username := "admin";
     SEC.auth_password := "music2026"; SEC.api_key := None;
     SEC.rate_limit_per_minute := 1; SEC.generation_limit_per_hour := 1;
     SEC.localhost_only := false; SEC.allowed_ips := ∅;
     SEC.blocked_ips := ∅; SEC.session_timeout_minutes := 60;
     SEC.log_access := true; SEC.log_auth_failures := true |}.

End SecurityDefs.

(** * Properties *)

(** ** Float comparisons *)

Module PyFacts.
Import Py.

Lemma Qltb_lt a b : Qltb a b = true <-> (a < b)%Q.
Proof.
  unfold Qltb. rewrite negb_true_iff. split.
  - intros H. apply Qnot_le_lt. intros Hle.
    apply Qle_bool_iff in Hle. congruence.
  - intros H. destruct (Qle_bool b a) eqn:E; [|reflexivity].
    apply Qle_bool_iff in E. exfalso. exact (Qlt_not_le _ _ H E).
Qed.

Lemma Qltb_ge a b : Qltb a b = false <-> (b <= a)%Q.
Proof.
  unfold Qltb. rewrite negb_false_iff. apply Qle_bool_iff.
Qed.

Lemma Qgeb_ge a b : Qgeb a b = true <-> (b <= a)%Q.
Proof. apply Qle_bool_iff. Qed.

Lemma Qgtb_gt a b : Qgtb a b = true <-> (b < a)%Q.
Proof. apply Qltb_lt. Qed.

Lemma Qgtb_le a b : Qgtb a b = false <-> (a <= b)%Q.
Proof. apply Qltb_ge. Qed.

(** *** Floats that may be infinite or nan *)

Lemma fle_refl a : a <> NaN -> fle a a.
Proof. destruct a; cbn; intros H; try exact I; [apply Qle_refl|congruence]. Qed.

Lemma fle_trans a b c : fle a b -> fle b c -> fle a c.
Proof.
  destruct a, b, c; cbn; intros H1 H2; try exact I; try contradiction.
  eapply Qle_trans; eassumption.
Qed.

Lemma flt_fle a b : flt a b = true -> fle a b.
Proof.
  destruct a, b; cbn; intros H; try exact I; try discriminate.
  apply Qltb_lt in H. apply Qlt_le_weak. exact H.
Qed.

Lemma flt_false_fle a b : a <> NaN -> b <> NaN -> flt a b = false -> fle b a.
Proof.
  destruct a, b; cbn; intros Ha Hb H; try exact I; try discriminate;
    try congruence.
  apply Qltb_ge in H. exact H.
Qed.

(** [min(a, b)] is below [a], and below [b], unless nan is involved *)
Lemma fmin_fle_l a b : a <> NaN -> fle (fmin a b) a.
Proof.
  intros Ha. unfold fmin. destruct (flt b a) eqn:E;
    [apply flt_fle; exact E|apply fle_refl; exact Ha].
Qed.

Lemma fmin_fle_r a b : a <> NaN -> b <> NaN -> fle (fmin a b) b.
Proof.
  intros Ha Hb. unfold fmin. destruct (flt b a) eqn:E;
    [apply fle_refl; exact Hb|apply flt_false_fle; assumption].
Qed.

(** [float(n)] is [n] itself up to 2^53 *)
Lemma float_of_int_exact n :
  Z.abs n <= 2 ^ 53 -> float_of_int n = inject_Z n.
Proof.
  intros H. unfold float_of_int.
  destruct (Z.leb_spec (Z.abs n) (2 ^ 53)); [reflexivity|lia].
Qed.

End PyFacts.

(** ** The admission policy *)

Module MemoryManagerSpec.
Import Py PyFacts MemoryManager MemoryManagerDefs.
Local Open Scope list_scope.

Lemma can_generate_unfold self est w :
  can_generate self est w =
  let available := next_available w in
  let floor := min_free_ram_gb (config self) in
  if Qltb available floor
  then (false, msg_blocked available floor, after_query w)
  else if Qltb (available - est)%Q floor
  then (false, msg_would_leave est available floor, after_query w)
  else if Qltb available (critical_threshold_gb (config self))
  then (if fst (emergency_memory_cleanup (after_query w))
        then (true, msg_cleanup_performed)
        else (false, msg_critical),
        snd (emergency_memory_cleanup (after_query w)))
  else if Qltb available (warning_threshold_gb (config self))
  then (true, msg_low_warning available, after_query w)
  else (true, [], after_query w).
Proof.
  unfold can_generate, ram_available_gb, bind at 1 2, ret at 1.
  unfold next_available, after_query. cbn [get_system_memory_info fst snd].
  cbv zeta.
  repeat match goal with |- context [if ?b then _ else _] =>
    lazymatch b with Qltb _ _ => destruct b eqn:? end end; try reflexivity.
  unfold bind. destruct (emergency_memory_cleanup _) as [[] ?]; reflexivity.
Qed.

(** C1. Whenever the reading is strictly below the configured floor
    [min_free_ram_gb], [can_generate] denies, whatever the estimated cost,
    and its message names the floor violation: it is, fragment by fragment,
    "🚫 BLOCKED: Only {available:.2f}GB RAM available. Need at least
    {floor}GB free. Close other applications and try again.", with the
    reading and the configured floor in their places. *)
Theorem can_generate_below_floor_denies self w (estimated_memory_gb : Q) :
  (next_available w < min_free_ram_gb (config self))%Q ->
  fst (can_generate self estimated_memory_gb w) =
    (false,
     [Txt "🚫 BLOCKED: Only "; Fixed 2 (next_available w);
      Txt "GB RAM available. ";
      Txt "Need at least "; Float (Finite (min_free_ram_gb (config self)));
      Txt "GB free. ";
      Txt "Close other applications and try again."]).
Proof.
  intros Hlow. rewrite can_generate_unfold. cbv zeta.
  apply Qltb_lt in Hlow. rewrite Hlow. reflexivity.
Qed.

(** Scenario A: floor 5 GB, 4.2 GB available, estimated cost 2.0 GB. The
    denial reads "Only 4.20GB RAM available. Need at least 5.0GB free." *)
Lemma can_generate_below_floor_denies_scenario_A :
  (next_available (steady_world (21 # 5))
     < min_free_ram_gb (config default_manager))%Q /\
  fst (can_generate default_manager 2 (steady_world (21 # 5))) =
    (false,
     [Txt "🚫 BLOCKED: Only "; Fixed 2 (21 # 5); Txt "GB RAM available. ";
      Txt "Need at least "; Float (Finite 5); Txt "GB free. ";
      Txt "Close other applications and try again."]).
Proof.
  split; [reflexivity|].
  apply (can_generate_below_floor_denies default_manager
           (steady_world (21 # 5)) 2).
  reflexivity.
Defined.

(** C2, as stated, fails: the reading 5.5 and the cost 0.25 keep both
    [available] and [available - cost] at or above the floor 5, and
    [can_generate] still denies, with the critical-shortage message. *)
Lemma can_generate_above_floor_may_deny :
  ~ (forall self w (estimated_memory_gb : Q),
       (min_free_ram_gb (config self) <= next_available w)%Q ->
       (min_free_ram_gb (config self)
          <= next_available w - estimated_memory_gb)%Q ->
       fst (fst (can_generate self estimated_memory_gb w)) = true).
Proof.
  intros H.
  specialize (H high_critical_manager dropping_world (1 # 4)).
  assert (E : fst (can_generate high_critical_manager (1 # 4) dropping_world)
              = (false, msg_critical)) by reflexivity.
  rewrite E in H. cbn in H.
  assert (false = true) as C by (apply H; vm_compute; discriminate).
  discriminate C.
Qed.

(** C2, amended. With [available >= floor] and
    [available - cost >= floor], [can_generate] allows whenever the reading
    is not below the critical threshold, which is always so when the
    critical threshold is at most the floor (as with the defaults 4 and 5);
    the message is the low-memory warning below the warning threshold and
    empty otherwise. Below the critical threshold the one cleanup decides:
    allowed with the cleanup message when [emergency_memory_cleanup]
    reports success, denied with the critical-shortage message when not. *)
Theorem can_generate_above_floor self w (estimated_memory_gb : Q) :
  let cfg := config self in
  let available := next_available w in
  (min_free_ram_gb cfg <= available)%Q ->
  (min_free_ram_gb cfg <= available - estimated_memory_gb)%Q ->
  ((critical_threshold_gb cfg <= min_free_ram_gb cfg)%Q \/
   (critical_threshold_gb cfg <= available)%Q ->
   fst (can_generate self estimated_memory_gb w) =
     (true, if Qltb available (warning_threshold_gb cfg)
            then msg_low_warning available else [])) /\
  ((available < critical_threshold_gb cfg)%Q ->
   fst (can_generate self estimated_memory_gb w) =
     if fst (emergency_memory_cleanup (after_query w))
     then (true, msg_cleanup_performed) else (false, msg_critical)).
Proof.
  intros cfg available Hfloor Hafter.
  rewrite can_generate_unfold. cbv zeta. fold cfg available.
  apply Qltb_ge in Hfloor. apply Qltb_ge in Hafter.
  rewrite Hfloor, Hafter. split.
  - intros Hcrit.
    assert (Hc : (critical_threshold_gb cfg <= available)%Q).
    { destruct Hcrit as [Hc|Hc]; [|exact Hc].
      apply Qltb_ge in Hfloor. eapply Qle_trans; eassumption. }
    apply Qltb_ge in Hc. rewrite Hc.
    destruct (Qltb available (warning_threshold_gb cfg)); reflexivity.
  - intros Hc. apply Qltb_lt in Hc. rewrite Hc.
    destruct (fst (emergency_memory_cleanup (after_query w))); reflexivity.
Qed.

(** Scenario B: floor 5 GB, 9 GB available, estimated cost 2 GB: allowed,
    no warning. *)
Lemma can_generate_above_floor_scenario_B :
  (min_free_ram_gb (config default_manager)
     <= next_available (steady_world 9))%Q /\
  (min_free_ram_gb (config default_manager)
     <= next_available (steady_world 9) - 2)%Q /\
  fst (can_generate default_manager 2 (steady_world 9)) = (true, []).
Proof.
  assert (H1 : (min_free_ram_gb (config default_manager)
                  <= next_available (steady_world 9))%Q)
    by (vm_compute; discriminate).
  assert (H2 : (min_free_ram_gb (config default_manager)
                  <= next_available (steady_world 9) - 2)%Q)
    by (vm_compute; discriminate).
  split; [exact H1|]. split; [exact H2|].
  destruct (can_generate_above_floor default_manager (steady_world 9) 2 H1 H2)
    as [Hallow _].
  rewrite Hallow; [reflexivity|].
  left. vm_compute. discriminate.
Defined.

(** The success test of the cleanup reads the module constant, not the
    configured floor. *)
Lemma emergency_memory_cleanup_result w :
  fst (emergency_memory_cleanup w) = Qgeb (next_available w) MIN_FREE_RAM_GB.
Proof.
  unfold emergency_memory_cleanup, next_available, bind, ret, emit,
    cuda_is_available, get_system_memory_info.
  destruct w as [tel q cuda tr]. destruct cuda; reflexivity.
Qed.

(** With a floor of 3 and a steady 3.5 GB, a cost of 0.25 GB keeps the floor
    and the check is denied all the same: the cleanup compares 3.5 with 5. *)
Example can_generate_recheck_reads_module_constant :
  fst (can_generate low_floor_manager (1 # 4) (steady_world (7 # 2))) =
    (false, msg_critical).
Proof. reflexivity. Qed.

(** What [_load_config] cannot change: the floor, the two thresholds, the
    collection switch and the batch size. *)
Lemma load_config_fixed env w :
  let cfg := fst (_load_config env w) in
  min_free_ram_gb cfg = MIN_FREE_RAM_GB /\
  warning_threshold_gb cfg = 6%Q /\
  critical_threshold_gb cfg = 4%Q /\
  aggressive_gc cfg = true /\
  max_batch_size cfg = 1.
Proof. cbv zeta. repeat split; reflexivity. Qed.

(** X4. For the manager that [__init__] builds from the environment the
    critical threshold lies below the floor, and the check allows whenever
    the reading and the reading less the cost are at or above the floor. *)
Lemma can_generate_above_floor_as_loaded env w0 w (estimated_memory_gb : Q) :
  let self := fst (__init__ env w0) in
  (min_free_ram_gb (config self) <= next_available w)%Q ->
  (min_free_ram_gb (config self)
     <= next_available w - estimated_memory_gb)%Q ->
  fst (fst (can_generate self estimated_memory_gb w)) = true.
Proof.
  cbv zeta. intros Hfloor Hafter.
  rewrite can_generate_unfold. cbv zeta.
  apply Qltb_ge in Hfloor. apply Qltb_ge in Hafter.
  rewrite Hfloor, Hafter.
  assert (Hc : Qltb (next_available w)
                 (critical_threshold_gb (config (fst (__init__ env w0))))
               = false).
  { apply Qltb_ge. apply Qltb_ge in Hfloor.
    eapply Qle_trans; [|exact Hfloor]. vm_compute. discriminate. }
  rewrite Hc.
  destruct (Qltb (next_available w) (warning_threshold_gb _)); reflexivity.
Qed.

(** *** Parameter clamping *)

Ltac case_duration :=
  match goal with
  | |- context [fgt ?d ?m] => destruct (fgt d m)
  end.

(** [MemoryConfig(...)] always ends construction with [max_batch_size = 1],
    whatever value was passed and whatever the telemetry says. *)
Lemma post_init_max_batch_size cfg w :
  max_batch_size (fst (post_init cfg w)) = 1.
Proof. reflexivity. Qed.

(** A request for more than one is clamped to 1, and the batch warning is
    the last of the warnings joined into the message. *)
Lemma validate_generation_params_clamps_large self w duration batch_size :
  1 < batch_size ->
  let r := fst (validate_generation_params self duration batch_size w) in
  returned_batch_size r = 1 /\
  exists earlier,
    returned_warning r = join " | " (earlier ++ [msg_batch batch_size]).
Proof.
  intros H. unfold validate_generation_params, ram_available_gb,
    get_system_memory_info, bind, ret.
  cbv beta iota zeta.
  case_duration; cbv beta iota;
    destruct (Z.gtb_spec batch_size 1); try lia;
    (split; [reflexivity|]).
  - eexists [_]. reflexivity.
  - exists []. reflexivity.
Qed.

(** A request for exactly one is returned as it is. *)
Lemma validate_generation_params_keeps_one self w duration :
  returned_batch_size (fst (validate_generation_params self duration 1 w)) = 1.
Proof.
  unfold validate_generation_params, ram_available_gb,
    get_system_memory_info, bind, ret.
  cbv beta iota zeta.
  case_duration; reflexivity.
Qed.

(** C3. The comment in the source says "Always force batch_size=1", and the
    configuration is pinned to 1 ([post_init_max_batch_size]); yet the guard
    is [batch_size > 1], so a request that is not above one is returned
    unchanged: [validate_generation_params(duration, 0)] returns batch size
    0, and a negative request comes back negative. *)
Theorem validate_generation_params_batch_not_forced self w duration :
  returned_batch_size (fst (validate_generation_params self duration 0 w)) = 0
  /\ returned_batch_size
       (fst (validate_generation_params self duration (-3) w)) = -3.
Proof.
  unfold validate_generation_params, ram_available_gb,
    get_system_memory_info, bind, ret.
  cbv beta iota zeta.
  split; case_duration; reflexivity.
Qed.

(** *** The protected region *)

Lemma count_app e l1 l2 : count e (l1 ++ l2) = (count e l1 + count e l2)%nat.
Proof. apply count_occ_app. Qed.

Lemma emergency_memory_cleanup_world w :
  let w' := snd (emergency_memory_cleanup w) in
  trace w' = trace w ++ emergency_events w /\
  telemetry w' = telemetry w /\ cuda_available w' = cuda_available w /\
  queries w' = S (queries w).
Proof.
  unfold emergency_memory_cleanup, emergency_events, bind, ret, emit,
    cuda_is_available, get_system_memory_info.
  destruct w as [tel q cuda tr]. cbn.
  destruct cuda; cbn; rewrite <- ?app_assoc; auto.
Qed.

Lemma emergency_events_counts w :
  count ForceCleanup (emergency_events w) = 0%nat /\
  count ProtectedRegion (emergency_events w) = 0%nat /\
  count EmergencyCleanup (emergency_events w) = 1%nat.
Proof. unfold emergency_events. destruct (cuda_available w); auto. Qed.

(** What [can_generate] itself does to the world: it never enters a region
    and never calls [force_memory_cleanup]. *)
Lemma can_generate_world self est w :
  exists pre,
    trace (snd (can_generate self est w)) = trace w ++ pre /\
    count ForceCleanup pre = 0%nat /\ count ProtectedRegion pre = 0%nat.
Proof.
  rewrite can_generate_unfold. cbv zeta.
  assert (Hq : exists pre, trace (after_query w) = trace w ++ pre /\
    count ForceCleanup pre = 0%nat /\ count ProtectedRegion pre = 0%nat).
  { exists []. rewrite app_nil_r. auto. }
  repeat match goal with |- context [if ?b then _ else _] =>
    lazymatch b with Qltb _ _ => destruct b end end; try exact Hq.
  cbn [snd].
  destruct (emergency_memory_cleanup_world (after_query w)) as (Ht & _).
  cbv zeta in Ht. rewrite Ht.
  exists (emergency_events (after_query w)).
  destruct (emergency_events_counts (after_query w)) as (? & ? & _). auto.
Qed.

Lemma force_memory_cleanup_spec self w :
  let self' := fst (force_memory_cleanup self w) in
  let w' := snd (force_memory_cleanup self w) in
  trace w' = trace w ++ force_events self w /\
  cuda_available w' = cuda_available w /\
  config self' = config self /\
  _generation_count self' =
    (if aggressive_gc (config self) then _generation_count self + 1
     else _generation_count self)%Z.
Proof.
  destruct w as [tel q cuda tr], self as [cfg c].
  unfold force_memory_cleanup, force_events, deep_due,
    emergency_memory_cleanup, emergency_events, bind, ret, emit,
    cuda_is_available, get_system_memory_info.
  cbn [config _generation_count telemetry queries cuda_available trace].
  generalize ((c + 1) mod 5 =? 0)%Z. intros due.
  destruct (aggressive_gc cfg), (clear_cuda_cache cfg), cuda, due;
    cbn [negb andb fst snd config _generation_count telemetry queries
         cuda_available trace];
    rewrite <- ?app_assoc, ?app_nil_r; auto.
Qed.

Lemma force_events_counts self w :
  count ForceCleanup (force_events self w) = 1%nat /\
  count ProtectedRegion (force_events self w) = 0%nat /\
  count EmergencyCleanup (force_events self w) =
    (if deep_due self then 1 else 0)%nat.
Proof.
  unfold force_events, deep_due.
  destruct (aggressive_gc (config self)); cbn [andb]; [|auto].
  destruct (_ =? 0)%Z;
    destruct (clear_cuda_cache (config self) && cuda_available w);
    unfold emergency_events; destruct (cuda_available w); auto.
Qed.

Lemma enter_region_spec {A} (body : Region A) w1 :
  fst (enter_region body w1) = region_outcome body (region_entry w1) /\
  trace (snd (enter_region body w1)) =
    trace w1 ++ [ProtectedRegion] ++ region_events body (region_entry w1) /\
  cuda_available (snd (enter_region body w1)) = cuda_available w1.
Proof.
  unfold enter_region, region_entry, bind, emit. cbn.
  rewrite <- app_assoc. auto.
Qed.

Lemma generation_context_unfold {A} self est (body : Region A) w :
  generation_context self est body w =
  let check := can_generate self est w in
  if fst (fst check)
  then
    let entered := enter_region body (snd check) in
    let cleaned := force_memory_cleanup self (snd entered) in
    (fst entered, fst cleaned, snd cleaned)
  else (Raised (MemoryError (snd (fst check))), self, snd check).
Proof.
  unfold generation_context, bind at 1.
  destruct (can_generate self est w) as [[can_proceed message] w1].
  cbn [fst snd]. destruct can_proceed; cbn [negb]; [|reflexivity].
  unfold bind, ret.
  destruct (enter_region body w1) as [r w2]. cbn [fst snd].
  destruct (force_memory_cleanup self w2) as [self' w3]. reflexivity.
Qed.

(** C4. One entry into [generation_context], from any manager and world and
    with any body, whether the body returns or raises.
    The admission check adds events [pre] with no region and no
    [force_memory_cleanup] among them.
    Denied: the result is [MemoryError] with the message of the check, the
    manager is unchanged and the world is as the check left it, so the body
    was not entered and nothing was cleaned.
    Allowed: the region is entered once, its outcome (value or exception) is
    the outcome of the entry, and after its events come events [post] with
    exactly one [force_memory_cleanup]; with [aggressive_gc] that call
    advances [_generation_count] by one and runs the deep
    [emergency_memory_cleanup] exactly when the new count is a multiple of
    5; without it the call changes nothing. *)
Theorem generation_context_cleanup_once {A} self (estimated_memory_gb : Q)
    (body : Region A) w :
  let check := can_generate self estimated_memory_gb w in
  let w1 := snd check in
  let entry := generation_context self estimated_memory_gb body w in
  let result := fst (fst entry) in
  let self' := snd (fst entry) in
  let w' := snd entry in
  (exists pre, trace w1 = trace w ++ pre /\
     count ForceCleanup pre = 0%nat /\ count ProtectedRegion pre = 0%nat) /\
  if fst (fst check) then
    exists post,
      trace w' =
        trace w1 ++ [ProtectedRegion]
          ++ region_events body (region_entry w1) ++ post /\
      result = region_outcome body (region_entry w1) /\
      count ForceCleanup post = 1%nat /\
      count ProtectedRegion post = 0%nat /\
      count EmergencyCleanup post =
        (if aggressive_gc (config self)
            && ((_generation_count self + 1) mod 5 =? 0)%Z
         then 1 else 0)%nat /\
      config self' = config self /\
      _generation_count self' =
        (if aggressive_gc (config self) then _generation_count self + 1
         else _generation_count self)%Z
  else
    result = Raised (MemoryError (snd (fst check))) /\
    self' = self /\ w' = w1.
Proof.
  cbv zeta. split; [apply can_generate_world|].
  rewrite generation_context_unfold. cbv zeta.
  destruct (fst (fst (can_generate self estimated_memory_gb w)));
    cbn [fst snd]; [|auto].
  set (w1 := snd (can_generate self estimated_memory_gb w)).
  destruct (enter_region_spec body w1) as (Hr & Ht & Hc).
  set (w2 := snd (enter_region body w1)) in *.
  destruct (force_memory_cleanup_spec self w2) as (Hf & _ & Hcfg & Hcnt).
  cbv zeta in Hf, Hcfg, Hcnt.
  destruct (force_events_counts self w2) as (C1 & C2 & C3).
  exists (force_events self w2).
  rewrite Hf, Ht, <- !app_assoc. auto 10.
Qed.

Lemma fifth_step (c : Z) :
  ((c + 1) / 5 - c / 5 = if ((c + 1) mod 5 =? 0)%Z then 1 else 0)%Z.
Proof.
  destruct (Z.eqb_spec ((c + 1) mod 5) 0);
    Z.to_euclidean_division_equations; lia.
Qed.

(** X11. The deep cleanup runs on every fifth completion: with [aggressive_gc],
    [n] completions advance the counter from [c] to [c + n], call
    [force_memory_cleanup] [n] times and run as many deep cleanups as there
    are multiples of 5 in [c + 1 .. c + n]. *)
Lemma cleanups_every_fifth n : forall self w,
  aggressive_gc (config self) = true ->
  let self' := fst (cleanups n self w) in
  let w' := snd (cleanups n self w) in
  config self' = config self /\
  _generation_count self' = (_generation_count self + Z.of_nat n)%Z /\
  exists evs,
    trace w' = trace w ++ evs /\
    count ForceCleanup evs = n /\
    Z.of_nat (count EmergencyCleanup evs) =
      ((_generation_count self + Z.of_nat n) / 5
         - _generation_count self / 5)%Z.
Proof.
  induction n as [|n IH]; intros self w Hgc; cbv zeta.
  - cbn [cleanups fst snd]. split; [reflexivity|]. split; [lia|].
    exists []. rewrite app_nil_r, Z.add_0_r. cbn. split; [reflexivity|].
    split; [reflexivity|lia].
  - cbn [cleanups].
    destruct (force_memory_cleanup_spec self w) as (Ht & _ & Hcfg & Hcnt).
    destruct (force_events_counts self w) as (C1 & _ & C3).
    destruct (force_memory_cleanup self w) as [self1 w1].
    cbn [fst snd] in Ht, Hcfg, Hcnt. rewrite Hgc in Hcnt.
    assert (Hgc1 : aggressive_gc (config self1) = true) by congruence.
    destruct (IH self1 w1 Hgc1) as (Hcfg' & Hcnt' & evs & Ht' & F & E).
    split; [congruence|]. split; [lia|].
    exists (force_events self w ++ evs).
    rewrite Ht', Ht, <- app_assoc, !count_app, C1, C3, F.
    split; [reflexivity|]. split; [reflexivity|].
    unfold deep_due. rewrite Hgc. cbn [andb].
    rewrite Nat2Z.inj_add, E, Hcnt.
    pose proof (fifth_step (_generation_count self)) as S5.
    destruct ((_generation_count self + 1) mod 5 =? 0)%Z;
      replace (_generation_count self + Z.of_nat (S n))%Z
        with (_generation_count self + 1 + Z.of_nat n)%Z by lia;
      cbn [Z.of_nat]; lia.
Qed.

Example generation_context_fifth_failure :
  let self := {| config := MemoryConfig_defaults; _generation_count := 4 |} in
  let entry := generation_context self 2 failing_body (steady_world 9) in
  fst entry = (Raised (UserError "generation failed"),
               {| config := MemoryConfig_defaults; _generation_count := 5 |})
  /\ trace (snd entry) =
       [ProtectedRegion; ForceCleanup; GcCollect; GcCollect; GcCollect;
        GcCollect; EmergencyCleanup; GcCollect; GcCollect; GcCollect;
        LinecacheClear; GcCollect].
Proof. split; reflexivity. Qed.

(** The same entry with 4.2 GB free: denied before the body. *)
Example generation_context_denied :
  let self := {| config := MemoryConfig_defaults; _generation_count := 4 |} in
  let entry := generation_context self 2 failing_body (steady_world (21 # 5)) in
  fst entry = (Raised (MemoryError (msg_blocked (21 # 5) 5)), self)
  /\ trace (snd entry) = [].
Proof. split; reflexivity. Qed.

(** With 5.5 GB free and the defaults, a cost of 2 GB would cross the
    floor. *)
Example can_generate_would_cross_floor :
  fst (can_generate default_manager 2 (steady_world (11 # 2))) =
    (false, msg_would_leave 2 (11 # 2) 5).
Proof. reflexivity. Qed.

End MemoryManagerSpec.

(** ** The limiters, the sessions and the access checks *)

Module SecuritySpec.
Import Py PyFacts Security SecurityDefs.
Local Open Scope list_scope.

(** *** Lists of timestamps *)

Lemma prune_live window now l : Forall (live window now) (prune window now l).
Proof.
  apply List.Forall_forall. intros t Ht. apply filter_In in Ht as [_ Ht].
  apply Qgtb_gt in Ht. exact Ht.
Qed.

Lemma prune_all_live window now l :
  Forall (live window now) l -> prune window now l = l.
Proof.
  induction 1 as [|t l Ht _ IH]; [reflexivity|].
  unfold prune in *. cbn [List.filter].
  apply Qgtb_gt in Ht. rewrite Ht, IH. reflexivity.
Qed.

Lemma prune_none_live window now l :
  Forall (fun t => ~ live window now t) l -> prune window now l = [].
Proof.
  induction 1 as [|t l Ht _ IH]; [reflexivity|].
  unfold prune in *. cbn [List.filter]. rewrite IH.
  destruct (Qgtb t (now - inject_Z window)%Q) eqn:E; [|reflexivity].
  apply Qgtb_gt in E. contradiction.
Qed.

Lemma min_list_le t ts :
  (min_list t ts <= t)%Q /\ Forall (fun x => (min_list t ts <= x)%Q) ts.
Proof.
  unfold min_list. revert t. induction ts as [|x ts IH]; intros t.
  - cbn. split; [apply Qle_refl|constructor].
  - cbn [fold_left]. destruct (Qltb x t) eqn:E.
    + apply Qltb_lt in E. destruct (IH x) as [Hx Hts].
      split; [|constructor; assumption].
      eapply Qle_trans; [exact Hx|]. apply Qlt_le_weak. exact E.
    + apply Qltb_ge in E. destruct (IH t) as [Ht Hts].
      split; [exact Ht|]. constructor; [|exact Hts].
      eapply Qle_trans; eassumption.
Qed.

Lemma min_list_in t ts : In (min_list t ts) (t :: ts).
Proof.
  unfold min_list. revert t. induction ts as [|x ts IH]; intros t.
  - left. reflexivity.
  - cbn [fold_left]. destruct (Qltb x t).
    + right. apply IH.
    + destruct (IH t) as [H|H]; [left; exact H|right; right; exact H].
Qed.

Lemma max0_pos x : (0 < x)%Q -> max0 x = x.
Proof. intros H. unfold max0. apply Qgtb_gt in H. rewrite H. reflexivity. Qed.

Lemma max0_nonpos x : (x <= 0)%Q -> max0 x = 0%Q.
Proof. intros H. unfold max0. apply Qgtb_le in H. rewrite H. reflexivity. Qed.

Lemma int_of_float_nonneg x : (0 < x)%Q -> 0 <= int_of_float x.
Proof.
  intros H. unfold int_of_float. apply Z.quot_pos; [|lia].
  unfold Qlt in H. cbn in H. lia.
Qed.

(** *** RateLimiter.get_reset_time *)

Lemma requests_of_set self id l :
  RL.requests_of (RL.set_requests self id l) id = l.
Proof.
  unfold RL.requests_of, RL.set_requests. cbn.
  rewrite lookup_insert_eq. reflexivity.
Qed.

Lemma get_reset_time_stored self id now :
  RL.get_reset_time self id now =
  match RL.requests_of self id with
  | [] => 0%Q
  | t :: ts =>
      max0 (min_list t ts + inject_Z (RL.window_seconds self) - now)%Q
  end.
Proof.
  unfold RL.get_reset_time, RL.requests_of.
  destruct (RL._requests self !! id) as [[|t ts]|]; reflexivity.
Qed.

(** C7, as stated, fails. At 70 s the request of 0 s is stale and still
    stored, the request of 50 s is live and ages out at 110 s, 40 s later;
    [get_reset_time] answers 0. *)
Lemma get_reset_time_stale_entry_hides_live_event :
  RL.requests_of two_requests "X" = [0%Q; 50%Q] /\
  prune 60 70 (RL.requests_of two_requests "X") = [50%Q] /\
  (time_until_oldest_live_ages_out two_requests "X" 70 == 40)%Q /\
  RL.get_reset_time two_requests "X" 70 = 0%Q /\
  ~ (RL.get_reset_time two_requests "X" 70
       == time_until_oldest_live_ages_out two_requests "X" 70)%Q.
Proof.
  assert (Hs : RL.requests_of two_requests "X" = [0%Q; 50%Q])
    by (vm_compute; reflexivity).
  split; [exact Hs|].
  unfold time_until_oldest_live_ages_out. rewrite get_reset_time_stored, Hs.
  repeat split; try (vm_compute; reflexivity).
  vm_compute. discriminate.
Qed.

(** With a stale timestamp in the list the answer is 0. *)
Lemma get_reset_time_stale self id now :
  Exists (fun t => ~ live (RL.window_seconds self) now t)
    (RL.requests_of self id) ->
  RL.get_reset_time self id now = 0%Q.
Proof.
  rewrite get_reset_time_stored.
  destruct (RL.requests_of self id) as [|t ts]; [reflexivity|].
  intros Hex. apply max0_nonpos.
  destruct (min_list_le t ts) as [Ht Hts].
  assert (Hall : Forall (fun x => (min_list t ts <= x)%Q) (t :: ts))
    by (constructor; assumption).
  apply List.Exists_exists in Hex as (x & Hin & Hx).
  rewrite List.Forall_forall in Hall. specialize (Hall x Hin).
  unfold live in Hx. apply Qnot_lt_le in Hx. lra.
Qed.

(** With nothing stale in the list the answer is the spec's. *)
Lemma get_reset_time_all_live self id now :
  Forall (live (RL.window_seconds self) now) (RL.requests_of self id) ->
  RL.get_reset_time self id now =
    time_until_oldest_live_ages_out self id now.
Proof.
  intros Hlive. rewrite get_reset_time_stored.
  unfold time_until_oldest_live_ages_out.
  rewrite (prune_all_live _ _ _ Hlive).
  destruct (RL.requests_of self id) as [|t ts]; [reflexivity|].
  apply max0_pos.
  rewrite List.Forall_forall in Hlive.
  specialize (Hlive _ (min_list_in t ts)). unfold live in Hlive. lra.
Qed.

(** C7, amended. [get_reset_time] measures from the oldest stored timestamp,
    stale or not. When no stored timestamp is stale it is the time until the
    oldest live event ages out; when the identity has no live event it is 0,
    also with stale entries in the list; and when any stored timestamp is
    stale it is 0, also when live events exist. *)
Theorem get_reset_time_from_oldest_stored self id now :
  let window := RL.window_seconds self in
  let stored := RL.requests_of self id in
  (Forall (live window now) stored ->
   RL.get_reset_time self id now =
     time_until_oldest_live_ages_out self id now) /\
  (prune window now stored = [] -> RL.get_reset_time self id now = 0%Q) /\
  (Exists (fun t => ~ live window now t) stored ->
   RL.get_reset_time self id now = 0%Q).
Proof.
  cbv zeta.
  split; [apply get_reset_time_all_live|].
  split; [|apply get_reset_time_stale].
  intros Hnone.
  destruct (RL.requests_of self id) as [|t ts] eqn:Hs.
  - rewrite get_reset_time_stored, Hs. reflexivity.
  - apply get_reset_time_stale. rewrite Hs.
    apply Exists_cons_hd. intros Ht.
    unfold prune in Hnone. cbn [List.filter] in Hnone.
    apply Qgtb_gt in Ht. rewrite Ht in Hnone. discriminate.
Qed.

(** The two requests of 0 s and 50 s: at 55 s both are live and the answer
    is the 5 s that the older one has left; at 70 s the older one is stale
    and the answer is 0. *)
Lemma get_reset_time_from_oldest_stored_at_55_and_70 :
  Forall (live 60 55) (RL.requests_of two_requests "X") /\
  RL.get_reset_time two_requests "X" 55 =
    time_until_oldest_live_ages_out two_requests "X" 55 /\
  (RL.get_reset_time two_requests "X" 55 == 5)%Q /\
  Exists (fun t => ~ live 60 70 t) (RL.requests_of two_requests "X") /\
  RL.get_reset_time two_requests "X" 70 = 0%Q.
Proof.
  assert (Hs : RL.requests_of two_requests "X" = [0%Q; 50%Q])
    by (vm_compute; reflexivity).
  assert (H55 : Forall (live 60 55) (RL.requests_of two_requests "X")).
  { rewrite Hs. repeat constructor. }
  assert (H70 : Exists (fun t => ~ live 60 70 t)
                  (RL.requests_of two_requests "X")).
  { rewrite Hs. left. vm_compute. discriminate. }
  destruct (get_reset_time_from_oldest_stored two_requests "X" 55)
    as (Hlive & _).
  destruct (get_reset_time_from_oldest_stored two_requests "X" 70)
    as (_ & _ & Hstale).
  split; [exact H55|]. split; [exact (Hlive H55)|].
  split; [vm_compute; reflexivity|]. split; [exact H70|exact (Hstale H70)].
Defined.

(** Where [check_rate_limit] asks: right after a denial, at the same
    [now], nothing stored is stale. *)
Lemma get_reset_time_after_denial self id now :
  fst (fst (RL.is_allowed self id now)) = false ->
  let self' := snd (RL.is_allowed self id now) in
  RL.get_reset_time self' id now =
    time_until_oldest_live_ages_out self' id now.
Proof.
  unfold RL.is_allowed. intros Hdeny. cbv zeta in *.
  destruct (_ >=? _)%Z; [|discriminate]. cbn [snd].
  apply get_reset_time_all_live. rewrite requests_of_set.
  apply prune_live.
Qed.

(** *** GenerationLimiter.can_generate *)

Lemma generations_of_set self id l :
  GL.generations_of (GL.set_generations self id l) id = l.
Proof.
  unfold GL.generations_of, GL.set_generations. cbn.
  rewrite lookup_insert_eq. reflexivity.
Qed.

Lemma quota_can_generate_unfold self id now :
  GL.can_generate self id now =
  let kept :=
    prune (GL.window_seconds self) now (GL.generations_of self id) in
  let self' := GL.set_generations self id kept in
  if (Z.of_nat (length kept) >=? GL.max_generations self)%Z then
    match kept with
    | [] => (Raise IndexError, self')
    | first :: _ =>
        (Ok (false, 0,
             GL.msg_limit (GL.max_generations self)
               (int_of_float
                  ((first + inject_Z (GL.window_seconds self) - now) / 60)
                + 1)),
         self')
    end
  else (Ok (true, GL.max_generations self - Z.of_nat (length kept), []),
        self').
Proof. reflexivity. Qed.

Lemma prune_sorted window now l :
  StronglySorted Qle l -> StronglySorted Qle (prune window now l).
Proof.
  induction 1 as [|t l _ IH Hall]; [constructor|].
  unfold prune in *. cbn [List.filter].
  destruct (Qgtb t _); [|exact IH].
  constructor; [exact IH|].
  apply List.Forall_forall. intros x Hx. apply filter_In in Hx as [Hx _].
  rewrite List.Forall_forall in Hall. exact (Hall x Hx).
Qed.

(** Recording at a time that is not before the stored ones keeps the list
    in chronological order. *)
Lemma record_generation_sorted self id now :
  StronglySorted Qle (GL.generations_of self id) ->
  Forall (fun t => (t <= now)%Q) (GL.generations_of self id) ->
  StronglySorted Qle
    (GL.generations_of (GL.record_generation self id now) id).
Proof.
  unfold GL.record_generation. rewrite generations_of_set.
  induction 1 as [|t l _ IH Hall]; intros Hle.
  - repeat constructor.
  - apply List.Forall_cons_iff in Hle as [Ht Hl].
    cbn. constructor; [apply IH; exact Hl|].
    apply List.Forall_app. split; [exact Hall|]. constructor; [exact Ht|].
    constructor.
Qed.

(** With a limit of at least one, [can_generate] never raises. *)
Lemma can_generate_returns self id now :
  1 <= GL.max_generations self ->
  exists allowed remaining msg,
    fst (GL.can_generate self id now) = Ok (allowed, remaining, msg).
Proof.
  intros Hmax. rewrite quota_can_generate_unfold. cbv zeta.
  destruct (Z.geb_spec
    (Z.of_nat (length (prune (GL.window_seconds self) now
                         (GL.generations_of self id))))
    (GL.max_generations self)) as [Hge|Hlt]; [|cbn; eauto].
  destruct (prune _ _ _) as [|first rest]; [cbn in Hge; lia|cbn; eauto].
Qed.

(** C8. An identity is at its limit when its live events number at least
    [max_generations]. There the code reads the first live event, [l[0]].
    With a limit that is not positive and no live event, the list is empty
    and the call raises IndexError: no denial is returned. With a live
    event, the call returns the denial [(False, 0, "Limite de geração
    atingido (N/hora). Tente novamente em M minutos.")] where M is
    [int(reset_seconds / 60) + 1] and [reset_seconds], the time until the
    first live event ages out, is strictly positive; so M is strictly
    positive. When the stored timestamps are in chronological order, that
    first live event is the oldest one. *)
Theorem can_generate_at_limit self id now :
  let kept := prune (GL.window_seconds self) now (GL.generations_of self id) in
  GL.max_generations self <= Z.of_nat (length kept) ->
  match kept with
  | [] => fst (GL.can_generate self id now) = Raise IndexError
  | first :: rest =>
      let reset_seconds :=
        (first + inject_Z (GL.window_seconds self) - now)%Q in
      let reset_minutes := int_of_float (reset_seconds / 60) + 1 in
      fst (GL.can_generate self id now) =
        Ok (false, 0,
            [Txt "Limite de geração atingido ("; Int (GL.max_generations self);
             Txt "/hora). Tente novamente em "; Int reset_minutes;
             Txt " minutos."]) /\
      (0 < reset_seconds)%Q /\
      0 < reset_minutes /\
      (StronglySorted Qle (GL.generations_of self id) ->
       Forall (Qle first) rest)
  end.
Proof.
  cbv zeta. intros Hlimit.
  rewrite quota_can_generate_unfold. cbv zeta.
  pose proof (prune_live (GL.window_seconds self) now
                (GL.generations_of self id)) as Hlive.
  pose proof (prune_sorted (GL.window_seconds self) now
                (GL.generations_of self id)) as Hsorted.
  destruct (Z.geb_spec
    (Z.of_nat (length (prune (GL.window_seconds self) now
                         (GL.generations_of self id))))
    (GL.max_generations self)) as [Hge|Hlt]; [|lia].
  destruct (prune _ _ _) as [|first rest]; [reflexivity|].
  split; [reflexivity|].
  apply List.Forall_inv in Hlive. unfold live in Hlive.
  assert (Hpos : (0 < first + inject_Z (GL.window_seconds self) - now)%Q)
    by lra.
  split; [exact Hpos|]. split.
  - assert (H : (0 < (first + inject_Z (GL.window_seconds self) - now) / 60)%Q).
    { apply Qlt_shift_div_l; [reflexivity|]. lra. }
    pose proof (int_of_float_nonneg _ H). lia.
  - intros Hs. specialize (Hsorted Hs).
    apply StronglySorted_inv in Hsorted as [_ Hall]. exact Hall.
Qed.

(** A limiter with a limit of 0 generations per hour, asked about an
    identity with no generation: the count 0 reaches the limit 0 and the
    call raises IndexError. *)
Lemma can_generate_at_limit_zero :
  GL.max_generations (GL.__init__ 0 1)
    <= Z.of_nat (length (prune (GL.window_seconds (GL.__init__ 0 1)) 0
                           (GL.generations_of (GL.__init__ 0 1) "X"))) /\
  fst (GL.can_generate (GL.__init__ 0 1) "X" 0) = Raise IndexError.
Proof.
  assert (H : GL.max_generations (GL.__init__ 0 1)
    <= Z.of_nat (length (prune (GL.window_seconds (GL.__init__ 0 1)) 0
                           (GL.generations_of (GL.__init__ 0 1) "X"))))
    by (vm_compute; discriminate).
  split; [exact H|].
  exact (can_generate_at_limit (GL.__init__ 0 1) "X" 0 H).
Defined.

(** A limit of 1 per hour and one generation at 0 s: the check at 10 s is
    denied, for 60 minutes. *)
Example can_generate_denied_for_60_minutes :
  fst (GL.can_generate one_generation "X" 10) =
    Ok (false, 0,
        [Txt "Limite de geração atingido ("; Int 1;
         Txt "/hora). Tente novamente em "; Int 60; Txt " minutos."]).
Proof. vm_compute. reflexivity. Qed.

(** *** GenerationLimiter against RateLimiter *)

(** C6, as stated, fails. With N = 1 the second check, inside the window,
    is allowed again with remaining 1: the allowed first check recorded
    nothing. [is_allowed] allows the first with remaining 0 and denies the
    second. *)
Lemma can_generate_allows_without_recording :
  fst unrecorded_first = Ok (true, 1, []) /\
  GL.generations_of (snd unrecorded_first) "X" = [] /\
  fst unrecorded_second = Ok (true, 1, []) /\
  ~ (exists msg, fst unrecorded_second = Ok (false, 0, msg)) /\
  fst rate_first = (true, 0) /\
  RL.requests_of (snd rate_first) "X" = [0%Q] /\
  fst rate_second = (false, 0).
Proof.
  assert (H2 : fst unrecorded_second = Ok (true, 1, []))
    by (vm_compute; reflexivity).
  split; [vm_compute; reflexivity|]. split; [vm_compute; reflexivity|].
  split; [exact H2|]. split.
  - intros [msg Hd]. rewrite H2 in Hd. discriminate.
  - repeat split; vm_compute; reflexivity.
Qed.

Lemma check_record_all_allowed id : forall steps self recorded final,
  GL.generations_of self id = recorded ->
  (forall r c, In r (recorded ++ map snd steps) ->
               In c (map fst steps ++ [final]) ->
               live (GL.window_seconds self) c r) ->
  Z.of_nat (length recorded + length steps) = GL.max_generations self ->
  let run := check_record_all self id steps in
  fst run =
    map (fun k => Ok (true, GL.max_generations self - Z.of_nat k, []))
      (seq (length recorded) (length steps)) /\
  GL.generations_of (snd run) id = recorded ++ map snd steps /\
  GL.max_generations (snd run) = GL.max_generations self /\
  GL.window_seconds (snd run) = GL.window_seconds self.
Proof.
  induction steps as [|[c r] rest IH]; intros self recorded final Hrec Hwin Hlen;
    cbv zeta.
  - cbn. rewrite app_nil_r. auto.
  - cbn [check_record_all]. rewrite quota_can_generate_unfold. cbv zeta.
    rewrite Hrec.
    assert (Hkeep : prune (GL.window_seconds self) c recorded = recorded).
    { apply prune_all_live. apply List.Forall_forall. intros x Hx.
      apply Hwin; [apply in_or_app; left; exact Hx|]. cbn. left. reflexivity. }
    rewrite Hkeep.
    destruct (Z.geb_spec (Z.of_nat (length recorded)) (GL.max_generations self))
      as [Hge|Hlt]; [cbn [length] in Hlen; lia|].
    set (self2 := GL.record_generation
                    (GL.set_generations self id recorded) id r).
    assert (Hrec2 : GL.generations_of self2 id = recorded ++ [r]).
    { unfold self2, GL.record_generation.
      rewrite !generations_of_set. reflexivity. }
    specialize (IH self2 (recorded ++ [r]) final Hrec2).
    cbv zeta in IH.
    destruct (check_record_all self2 id rest) as [ds self3].
    cbn [fst snd] in *.
    destruct IH as (Hds & Hgen & Hmax & Hw).
    + intros x y Hx Hy. change (GL.window_seconds self2)
        with (GL.window_seconds self).
      apply Hwin.
      * rewrite <- app_assoc in Hx. exact Hx.
      * cbn. right. exact Hy.
    + change (GL.max_generations self2) with (GL.max_generations self).
      rewrite length_app. cbn [length] in *. lia.
    + change (GL.max_generations self2) with (GL.max_generations self) in *.
      change (GL.window_seconds self2) with (GL.window_seconds self) in *.
      rewrite length_app in Hds. cbn [length] in Hds.
      replace (length recorded + 1)%nat with (S (length recorded)) in Hds
        by lia.
      cbn [length seq map]. rewrite Hds, Hgen, <- app_assoc. auto.
Qed.

(** An allowed check stores the pruned list and nothing else, and counts
    what is left before any recording. *)
Lemma can_generate_allowed_only_prunes self id now remaining msg self' :
  GL.can_generate self id now = (Ok (true, remaining, msg), self') ->
  GL.generations_of self' id =
    prune (GL.window_seconds self) now (GL.generations_of self id) /\
  remaining =
    GL.max_generations self - Z.of_nat (length (GL.generations_of self' id)) /\
  msg = [].
Proof.
  rewrite quota_can_generate_unfold. cbv zeta. intros H.
  destruct (_ >=? _)%Z.
  - destruct (prune _ _ _); discriminate.
  - injection H as <- <- <-. rewrite generations_of_set. auto.
Qed.

(** A check recorded at once is [is_allowed]: same decision, same table
    afterwards, one more remaining on an allowed call. *)
Lemma check_then_record_is_allowed rl gl id now :
  same_history rl gl ->
  1 <= GL.max_generations gl ->
  let a := RL.is_allowed rl id now in
  let c := check_then_record gl id now in
  same_history (snd a) (snd c) /\
  exists msg,
    fst c = Ok (fst (fst a),
                if fst (fst a) then snd (fst a) + 1 else snd (fst a),
                msg).
Proof.
  intros (Hmax & Hwin & Htab) Hone. cbv zeta.
  unfold check_then_record. rewrite quota_can_generate_unfold. cbv zeta.
  unfold RL.is_allowed. cbv zeta.
  assert (Hreq : RL.requests_of rl id = GL.generations_of gl id)
    by (unfold RL.requests_of, GL.generations_of; rewrite Htab; reflexivity).
  rewrite Hreq, Hmax, Hwin. fold (prune (GL.window_seconds gl) now
                                   (GL.generations_of gl id)).
  set (kept := prune (GL.window_seconds gl) now (GL.generations_of gl id)).
  destruct (Z.geb_spec (Z.of_nat (length kept)) (GL.max_generations gl))
    as [Hge|Hlt].
  - destruct kept as [|first rest] eqn:Hk; [cbn in Hge; lia|].
    cbn [fst snd]. split; [|eauto].
    unfold same_history, RL.set_requests, GL.set_generations. cbn.
    rewrite Htab. auto.
  - cbn [fst snd]. split.
    + unfold same_history, GL.record_generation.
      rewrite generations_of_set.
      unfold RL.set_requests, GL.set_generations. cbn.
      rewrite Htab, insert_insert_eq. auto.
    + exists []. f_equal. f_equal. f_equal. lia.
Qed.

(** C6, amended. (1) An allowed [can_generate] records nothing: it stores
    the pruned list and returns [max_generations] minus the live count.
    (2) With [record_generation] after each allowed check, an identity with
    no stored generation and a limit N >= 1 gets N checks allowed, with
    remaining N, N-1, ..., 1, and the next check denied with remaining 0,
    and the message "Limite de geração atingido (N/hora). Tente novamente
    em M minutos.", when every recorded time is inside the window at every
    check.
    (3) With a limit of at least 1, a check recorded at the time of the
    check decides as [is_allowed] does on the same table and leaves the
    same table; its remaining on an allowed call is one more than that of
    [is_allowed]. *)
Theorem can_generate_with_record_is_rate_window :
  (forall self id now remaining msg self',
     GL.can_generate self id now = (Ok (true, remaining, msg), self') ->
     GL.generations_of self' id =
       prune (GL.window_seconds self) now (GL.generations_of self id) /\
     remaining =
       GL.max_generations self
         - Z.of_nat (length (GL.generations_of self' id))) /\
  (forall self id (steps : list (Q * Q)) (final : Q),
     GL.generations_of self id = [] ->
     1 <= GL.max_generations self ->
     Z.of_nat (length steps) = GL.max_generations self ->
     (forall r c, In r (map snd steps) -> In c (map fst steps ++ [final]) ->
                  live (GL.window_seconds self) c r) ->
     let run := check_record_all self id steps in
     fst run =
       map (fun k => Ok (true, GL.max_generations self - Z.of_nat k, []))
         (seq 0 (length steps)) /\
     exists minutes,
       fst (GL.can_generate (snd run) id final) =
         Ok (false, 0,
             [Txt "Limite de geração atingido ("; Int (GL.max_generations self);
              Txt "/hora). Tente novamente em "; Int minutes;
              Txt " minutos."])) /\
  (forall rl gl id now,
     same_history rl gl ->
     1 <= GL.max_generations gl ->
     let a := RL.is_allowed rl id now in
     let c := check_then_record gl id now in
     same_history (snd a) (snd c) /\
     exists msg,
       fst c = Ok (fst (fst a),
                   if fst (fst a) then snd (fst a) + 1 else snd (fst a),
                   msg)).
Proof.
  split; [|split].
  - intros self id now remaining msg self' H.
    destruct (can_generate_allowed_only_prunes _ _ _ _ _ _ H) as (? & ? & _).
    auto.
  - intros self id steps final Hfresh Hone Hlen Hwin. cbv zeta.
    destruct (check_record_all_allowed id steps self [] final Hfresh)
      as (Hds & Hgen & Hmax & Hw); [exact Hwin|cbn; lia|].
    cbn [length app] in *. split; [exact Hds|].
    rewrite quota_can_generate_unfold. cbv zeta. rewrite Hgen, Hmax, Hw.
    assert (Hkeep : prune (GL.window_seconds self) final (map snd steps)
                    = map snd steps).
    { apply prune_all_live. apply List.Forall_forall. intros x Hx.
      apply Hwin; [exact Hx|]. apply in_or_app. right. left. reflexivity. }
    rewrite Hkeep, length_map.
    destruct (Z.geb_spec (Z.of_nat (length steps)) (GL.max_generations self))
      as [_|Hlt]; [|lia].
    destruct steps as [|[c r] rest]; [cbn in Hlen; lia|].
    cbn [map snd fst]. eexists. reflexivity.
  - exact check_then_record_is_allowed.
Qed.

(** Scenario C on the quota: limit 3, checks and recordings at 1 s, 5 s and
    9 s, a fourth check at 15 s. *)
Lemma can_generate_with_record_scenario_C :
  fst (check_record_all (GL.__init__ 3 1) "X"
         [(1%Q, 1%Q); (5%Q, 5%Q); (9%Q, 9%Q)]) =
    [Ok (true, 3, []); Ok (true, 2, []); Ok (true, 1, [])] /\
  exists minutes,
    fst (GL.can_generate
           (snd (check_record_all (GL.__init__ 3 1) "X"
                   [(1%Q, 1%Q); (5%Q, 5%Q); (9%Q, 9%Q)])) "X" 15) =
      Ok (false, 0,
          [Txt "Limite de geração atingido ("; Int 3;
           Txt "/hora). Tente novamente em "; Int minutes;
           Txt " minutos."]).
Proof.
  destruct can_generate_with_record_is_rate_window as (_ & Hrun & _).
  apply (Hrun (GL.__init__ 3 1) "X" [(1%Q, 1%Q); (5%Q, 5%Q); (9%Q, 9%Q)] 15%Q).
  - reflexivity.
  - cbn. lia.
  - reflexivity.
  - intros r c Hr Hc. unfold live. cbn in Hr, Hc.
    destruct Hr as [<-|[<-|[<-|[]]]];
      destruct Hc as [<-|[<-|[<-|[<-|[]]]]]; reflexivity.
Defined.

(** Scenario C on the rate limiter: limit 3 in 60 s; three calls of "X"
    within 10 s leave 2, 1, 0; the call at 15 s is denied; the call at
    61 s is allowed. *)
Example is_allowed_scenario_C :
  let l0 := RL.__init__ 3 60 in
  let a1 := RL.is_allowed l0 "X" 1 in
  let a2 := RL.is_allowed (snd a1) "X" 5 in
  let a3 := RL.is_allowed (snd a2) "X" 9 in
  let a4 := RL.is_allowed (snd a3) "X" 15 in
  let a5 := RL.is_allowed (snd a4) "X" 61 in
  (fst a1, fst a2, fst a3, fst a4, fst a5) =
    ((true, 2), (true, 1), (true, 0), (false, 0), (true, 0)).
Proof. vm_compute. reflexivity. Qed.

(** *** SessionManager.validate_session *)

Lemma init_well_keyed timeout_minutes : well_keyed (SM.__init__ timeout_minutes).
Proof. unfold well_keyed. cbn. apply lookup_empty. Qed.

Lemma create_session_well_keyed self username ip token now :
  token <> "" -> well_keyed self ->
  well_keyed (snd (SM.create_session self username ip token now)).
Proof.
  unfold well_keyed. cbn. intros Hne H. rewrite lookup_insert_ne; auto.
Qed.

Lemma end_session_well_keyed self sid :
  well_keyed self -> well_keyed (SM.end_session self sid).
Proof.
  unfold well_keyed. cbn. intros H.
  destruct (decide (sid = "")) as [->|Hne];
    [apply lookup_delete_eq|rewrite lookup_delete_ne; auto].
Qed.

Lemma cleanup_expired_well_keyed self now :
  well_keyed self -> well_keyed (SM.cleanup_expired self now).
Proof.
  unfold well_keyed, SM.cleanup_expired. intros H.
  destruct (_ <=? _)%Z; [exact H|]. cbn.
  apply map_lookup_filter_None. left. exact H.
Qed.

Lemma validate_session_well_keyed self sid now :
  well_keyed self -> well_keyed (snd (SM.validate_session self sid now)).
Proof.
  unfold well_keyed, SM.validate_session. intros H.
  destruct (String.eqb_spec sid "") as [->|Hne]; [exact H|].
  destruct (SM._sessions self !! sid) as [s|]; [|exact H].
  destruct (_ && _); cbn.
  - rewrite lookup_delete_ne; auto.
  - rewrite lookup_insert_ne; auto.
Qed.

Lemma expired_iff self now s :
  (SM.timeout_seconds self >? 0)%Z && SM.idle_too_long self now s = true
  <-> ~ visible self now s.
Proof.
  unfold visible, SM.idle_too_long. rewrite andb_true_iff, Qgtb_gt.
  destruct (Z.gtb_spec (SM.timeout_seconds self) 0) as [Hpos|Hnp]; split.
  - intros [_ Hlt] [Hle|Hle]; [lia|]. exact (Qlt_not_le _ _ Hlt Hle).
  - intros Hnv. split; [reflexivity|]. apply Qnot_le_lt. intros Hle.
    apply Hnv. right. exact Hle.
  - intros [Hf _]. discriminate.
  - intros Hnv. exfalso. apply Hnv. left. lia.
Qed.

(** C5. In a registry with no session under the empty id,
    [validate_session] returns a session exactly when the id is stored and
    [now - last_activity <= timeout] (or the timeout is not positive).
    The session it returns has the id, the user, the address, the creation
    time and the generation count of the stored one and [now] as its
    [last_activity], and the registry holds that record afterwards; an
    expired session is deleted from the registry and the result is absent;
    for an unknown id nothing changes. *)
Theorem validate_session_sliding_expiration self session_id now :
  well_keyed self ->
  let result := fst (SM.validate_session self session_id now) in
  let self' := snd (SM.validate_session self session_id now) in
  (is_Some result <->
   exists s, SM._sessions self !! session_id = Some s /\ visible self now s) /\
  (forall s, SM._sessions self !! session_id = Some s ->
     visible self now s ->
     let touched :=
       {| SM.session_id := SM.session_id s;
          SM.username := SM.username s;
          SM.ip_address := SM.ip_address s;
          SM.created_at := SM.created_at s;
          SM.last_activity := now;
          SM.generation_count := SM.generation_count s |} in
     result = Some touched /\
     SM._sessions self' = <[session_id := touched]> (SM._sessions self) /\
     SM._sessions self' !! session_id = Some touched)
  /\
  (forall s, SM._sessions self !! session_id = Some s ->
     ~ visible self now s ->
     result = None /\
     SM._sessions self' = delete session_id (SM._sessions self) /\
     SM._sessions self' !! session_id = None) /\
  (SM._sessions self !! session_id = None ->
     result = None /\ self' = self) /\
  SM.timeout_seconds self' = SM.timeout_seconds self.
Proof.
  intros Hwf. cbv zeta. unfold SM.validate_session.
  destruct (String.eqb_spec session_id "") as [->|Hne].
  - unfold well_keyed in Hwf. cbn [fst snd]. rewrite Hwf.
    split; [|split; [|split; [|split]]]; try discriminate; auto.
    split; [intros [? ?]; discriminate|intros (s & ? & _); discriminate].
  - destruct (SM._sessions self !! session_id) as [s|] eqn:Hs.
    + pose proof (expired_iff self now s) as Hexp.
      destruct (_ && _) eqn:E; cbn [fst snd].
      * assert (Hnv : ~ visible self now s) by (apply Hexp; reflexivity).
        split; [|split; [|split; [|split]]]; try discriminate; auto.
        -- split; [intros [? ?]; discriminate|].
           intros (s0 & [= <-] & Hv). contradiction.
        -- intros s0 [= <-] Hv. contradiction.
        -- intros s0 _ _. split; [reflexivity|].
           split; [reflexivity|]. cbn [SM.set_sessions SM._sessions].
           apply lookup_delete_eq.
      * assert (Hv : visible self now s).
        { destruct (Z.gtb_spec (SM.timeout_seconds self) 0) as [Hpos|Hnp];
            [|left; lia].
          cbn in E. right. apply Qgtb_le. exact E. }
        split; [|split; [|split; [|split]]]; try discriminate; auto.
        -- split; [intros _; eauto|intros _; eauto].
        -- intros s0 [= <-] _. split; [reflexivity|].
           split; [reflexivity|]. cbn [SM.set_sessions SM._sessions].
           apply lookup_insert_eq.
        -- intros s0 [= <-] Hnv. contradiction.
    + cbn [fst snd].
      split; [|split; [|split; [|split]]]; try discriminate; auto.
      split; [intros [? ?]; discriminate|intros (s & ? & _); discriminate].
Qed.

(** Scenario D, first step: the session of "admin", created at 0 with a
    timeout of 60 minutes, is validated at 59 minutes and comes back with
    every field as created and [last_activity] at 59 minutes. *)
Lemma validate_session_sliding_expiration_scenario_D :
  well_keyed one_session /\
  fst (SM.validate_session one_session "token" 3540) =
    Some {| SM.session_id := "token"; SM.username := "admin";
            SM.ip_address := "127.0.0.1"; SM.created_at := 0;
            SM.last_activity := 3540; SM.generation_count := 0 |}.
Proof.
  assert (Hwf : well_keyed one_session).
  { apply create_session_well_keyed; [discriminate|apply init_well_keyed]. }
  split; [exact Hwf|].
  destruct (validate_session_sliding_expiration one_session "token" 3540 Hwf)
    as (_ & Htouch & _).
  refine (proj1 (Htouch
    {| SM.session_id := "token"; SM.username := "admin";
       SM.ip_address := "127.0.0.1"; SM.created_at := 0;
       SM.last_activity := 0; SM.generation_count := 0 |} _ _)).
  - reflexivity.
  - right. vm_compute. discriminate.
Defined.

(** The whole of scenario D: validated at 59 min and again 60 min later,
    then left alone for 61 min. *)
Example validate_session_scenario_D :
  let v1 := SM.validate_session one_session "token" (59 * 60) in
  let v2 := SM.validate_session (snd v1) "token" (119 * 60) in
  let v3 := SM.validate_session (snd v2) "token" (180 * 60) in
  (SM.last_activity <$> fst v1) = Some (59 * 60)%Q /\
  (SM.last_activity <$> fst v2) = Some (119 * 60)%Q /\
  fst v3 = None /\
  SM._sessions (snd v3) !! "token" = None.
Proof. repeat split; vm_compute; reflexivity. Qed.

(** *** SecurityManager.check_ip_access *)

(** the test [ip not in ('127.0.0.1', 'localhost', '::1')] *)
Lemma is_loopback_literals ip :
  SEC.is_loopback ip = false <->
  ip <> "127.0.0.1" /\ ip <> "localhost" /\ ip <> "::1".
Proof.
  unfold SEC.is_loopback, SEC.loopback. cbn [existsb].
  destruct (String.eqb_spec ip "127.0.0.1");
    destruct (String.eqb_spec ip "localhost");
    destruct (String.eqb_spec ip "::1"); cbn; split; try discriminate; tauto.
Qed.

(** C9, as stated, fails. 127.0.0.2 is a loopback address; in localhost-only
    mode, with nothing blocked and no allow-list, the cascade of C9 allows
    it, and [check_ip_access] denies it: the code compares the address with
    three strings. *)
Lemma check_ip_access_denies_loopback_address :
  loopback_address "127.0.0.2" = true /\
  ("127.0.0.2" ∉ SEC.blocked_ips localhost_only_config) /\
  SEC.allowed_ips localhost_only_config = ∅ /\
  SEC.check_ip_access localhost_only_config "127.0.0.2"
    = (false, "Apenas acesso local permitido") /\
  ~ (forall config ip,
       strip ip ∉ SEC.blocked_ips config ->
       ~ (SEC.localhost_only config = true /\
          loopback_address (strip ip) = false) ->
       ~ (SEC.allowed_ips config <> ∅ /\ strip ip ∉ SEC.allowed_ips config) ->
       fst (SEC.check_ip_access config ip) = true).
Proof.
  assert (Hb : "127.0.0.2" ∉ SEC.blocked_ips localhost_only_config)
    by (cbn; set_solver).
  split; [reflexivity|]. split; [exact Hb|]. split; [reflexivity|].
  split; [reflexivity|].
  intros H. specialize (H localhost_only_config "127.0.0.2").
  assert (Hd : fst (SEC.check_ip_access localhost_only_config "127.0.0.2")
               = false) by reflexivity.
  rewrite H in Hd; [discriminate|exact Hb| |].
  - intros [_ Hl]. discriminate Hl.
  - intros [He _]. apply He. reflexivity.
Qed.

(** C9, amended. With [ip] the address after [strip()]:
    blocked means denied ("Acesso bloqueado"), also when the address is
    allowed as well; if not blocked, localhost-only mode denies ("Apenas
    acesso local permitido") every address that is none of the three
    strings '127.0.0.1', 'localhost' and '::1'; if that does not deny, a
    non-empty allow-list denies ("IP não autorizado") the addresses it does
    not hold; everything else is allowed. *)
Theorem check_ip_access_order config ip_address :
  let ip := strip ip_address in
  let blocked := ip ∈ SEC.blocked_ips config in
  let local_denied :=
    SEC.localhost_only config = true /\
    ip <> "127.0.0.1" /\ ip <> "localhost" /\ ip <> "::1" in
  let list_denied :=
    SEC.allowed_ips config <> ∅ /\ ip ∉ SEC.allowed_ips config in
  (blocked ->
   SEC.check_ip_access config ip_address = (false, "Acesso bloqueado")) /\
  (~ blocked -> local_denied ->
   SEC.check_ip_access config ip_address
     = (false, "Apenas acesso local permitido")) /\
  (~ blocked -> ~ local_denied -> list_denied ->
   SEC.check_ip_access config ip_address = (false, "IP não autorizado")) /\
  (~ blocked -> ~ local_denied -> ~ list_denied ->
   SEC.check_ip_access config ip_address = (true, "")).
Proof.
  cbv zeta. unfold SEC.check_ip_access.
  set (ip := strip ip_address).
  destruct (bool_decide_reflect (ip ∈ SEC.blocked_ips config)) as [Hb|Hb].
  { repeat split; intros; try contradiction; reflexivity. }
  assert (Hlocal :
    SEC.localhost_only config && negb (SEC.is_loopback ip) = true <->
    SEC.localhost_only config = true /\
    ip <> "127.0.0.1" /\ ip <> "localhost" /\ ip <> "::1").
  { rewrite andb_true_iff, negb_true_iff, is_loopback_literals.
    reflexivity. }
  destruct (SEC.localhost_only config && negb (SEC.is_loopback ip)).
  { pose proof (proj1 Hlocal eq_refl) as Hd.
    repeat split; intros; try contradiction; reflexivity. }
  assert (Hnd : ~ (SEC.localhost_only config = true /\
                   ip <> "127.0.0.1" /\ ip <> "localhost" /\ ip <> "::1"))
    by (intros Hd; apply Hlocal in Hd; discriminate).
  destruct (bool_decide_reflect (SEC.allowed_ips config = ∅)) as [He|He];
    destruct (bool_decide_reflect (ip ∈ SEC.allowed_ips config)) as [Ha|Ha];
    cbn [andb negb];
    repeat split; intros; try contradiction; try reflexivity;
    try (exfalso; tauto).
Qed.

(** The address 10.0.0.7 on both lists is denied as blocked; in
    localhost-only mode 127.0.0.2 is denied and 127.0.0.1 allowed. *)
Lemma check_ip_access_block_list_first :
  strip " 10.0.0.7 " ∈ SEC.blocked_ips both_lists /\
  strip " 10.0.0.7 " ∈ SEC.allowed_ips both_lists /\
  SEC.check_ip_access both_lists " 10.0.0.7 " = (false, "Acesso bloqueado") /\
  SEC.check_ip_access localhost_only_config "127.0.0.2"
    = (false, "Apenas acesso local permitido") /\
  SEC.check_ip_access localhost_only_config " 127.0.0.1" = (true, "").
Proof.
  assert (Hs : strip " 10.0.0.7 " = "10.0.0.7") by reflexivity.
  assert (Hb : strip " 10.0.0.7 " ∈ SEC.blocked_ips both_lists)
    by (rewrite Hs; cbn; set_solver).
  split; [exact Hb|]. split; [rewrite Hs; cbn; set_solver|].
  destruct (check_ip_access_order both_lists " 10.0.0.7 ") as (Hblock & _).
  split; [exact (Hblock Hb)|].
  assert (Hnb : forall ip, ip ∉ SEC.blocked_ips localhost_only_config)
    by (intros ip; cbn; set_solver).
  destruct (check_ip_access_order localhost_only_config "127.0.0.2")
    as (_ & Hlocal & _).
  destruct (check_ip_access_order localhost_only_config " 127.0.0.1")
    as (_ & _ & _ & Hallow).
  split.
  - apply Hlocal; [apply Hnb|]. split; [reflexivity|].
    change (strip "127.0.0.2") with "127.0.0.2".
    repeat split; discriminate.
  - apply Hallow; [apply Hnb| |].
    + change (strip " 127.0.0.1") with "127.0.0.1".
      intros (_ & Hne & _). apply Hne. reflexivity.
    + intros [He _]. apply He. reflexivity.
Defined.

(** *** SecurityManager.verify_api_key *)

Lemma str_truthy_configured config :
  SEC.str_truthy (SEC.api_key config) = true <->
  exists key, configured config key.
Proof.
  unfold configured, SEC.str_truthy. destruct (SEC.api_key config) as [k|].
  - destruct (String.eqb_spec k ""); cbn; split; try discriminate; eauto.
    intros (key & [= <-] & Hne). contradiction.
  - split; [discriminate|]. intros (key & [=] & _).
Qed.

(** No key configured: every provided key passes, a missing one too. *)
Lemma verify_api_key_no_key config provided_key :
  SEC.str_truthy (SEC.api_key config) = false ->
  SEC.verify_api_key config provided_key = Ok true.
Proof. intros H. unfold SEC.verify_api_key. rewrite H. reflexivity. Qed.

(** A key configured: a missing key ([None] or empty) fails. *)
Lemma verify_api_key_missing config key :
  configured config key ->
  SEC.verify_api_key config None = Ok false /\
  SEC.verify_api_key config (Some "") = Ok false.
Proof.
  intros [Hk Hne]. unfold SEC.verify_api_key. rewrite Hk.
  cbn [SEC.str_truthy]. apply String.eqb_neq in Hne. rewrite Hne.
  split; reflexivity.
Qed.

(** A key configured, both keys ASCII: accepted exactly when the provided
    key without its "Bearer " prefix is the configured key. *)
Lemma verify_api_key_ascii config key provided :
  configured config key ->
  provided <> "" ->
  is_ascii key = true ->
  is_ascii (bearer_stripped provided) = true ->
  exists valid,
    SEC.verify_api_key config (Some provided) = Ok valid /\
    (valid = true <-> bearer_stripped provided = key).
Proof.
  intros [Hk Hne] Hp Hak Hap. unfold SEC.verify_api_key. rewrite Hk.
  cbn [SEC.str_truthy]. apply String.eqb_neq in Hne, Hp.
  rewrite Hne, Hp. cbn [negb]. fold (bearer_stripped provided).
  unfold compare_digest. rewrite Hak, Hap. cbn [andb].
  eexists. split; [reflexivity|]. apply String.eqb_eq.
Qed.

(** A key configured: a non-ASCII character on either side makes the
    comparison raise, whatever the keys are. *)
Lemma verify_api_key_non_ascii config key provided :
  configured config key ->
  provided <> "" ->
  is_ascii (bearer_stripped provided) && is_ascii key = false ->
  SEC.verify_api_key config (Some provided) = Raise TypeError.
Proof.
  intros [Hk Hne] Hp Hna. unfold SEC.verify_api_key. rewrite Hk.
  cbn [SEC.str_truthy]. apply String.eqb_neq in Hne, Hp.
  rewrite Hne, Hp. cbn [negb]. fold (bearer_stripped provided).
  unfold compare_digest. rewrite Hna.
  reflexivity.
Qed.

(** C10. Without a configured key every provided key is accepted
    ([verify_api_key_no_key]), with one a missing key is refused
    ([verify_api_key_missing]), and ASCII keys are accepted exactly when
    equal after the prefix is removed ([verify_api_key_ascii]). The
    docstring promises True for a valid key and False otherwise; with the
    configured key "clé" the very same key, bare or after "Bearer ", is not
    accepted: [secrets.compare_digest] raises TypeError on a str with a
    non-ASCII character. *)
Theorem verify_api_key_non_ascii_key_raises :
  configured accented_key "clé" /\
  bearer_stripped "Bearer clé" = "clé" /\
  SEC.verify_api_key accented_key (Some "clé") = Raise TypeError /\
  SEC.verify_api_key accented_key (Some "Bearer clé") = Raise TypeError.
Proof.
  split; [split; [reflexivity|discriminate]|].
  repeat split; reflexivity.
Qed.

(** An ASCII key behind its prefix, and a wrong one. *)
Example verify_api_key_bearer :
  let config :=
    {| SEC.auth_enabled := true; SEC.auth_username := "admin";
       SEC.auth_password := "music2026"; SEC.api_key := Some "sk-acestep-1";
       SEC.rate_limit_per_minute := 30; SEC.generation_limit_per_hour := 20;
       SEC.localhost_only := false; SEC.allowed_ips := ∅;
       SEC.blocked_ips := ∅; SEC.session_timeout_minutes := 60;
       SEC.log_access := true; SEC.log_auth_failures := true |} in
  SEC.verify_api_key config (Some "Bearer sk-acestep-1") = Ok true /\
  SEC.verify_api_key config (Some "sk-acestep-1") = Ok true /\
  SEC.verify_api_key config (Some "Bearer ") = Ok false /\
  SEC.verify_api_key config (Some "sk-acestep-2") = Ok false /\
  SEC.verify_api_key config None = Ok false.
Proof. repeat split; reflexivity. Qed.

End SecuritySpec.

(** * Further properties *)

(** ** The memory configuration, the clamp and the status *)

Module MemoryManagerExtra.
Import Py PyFacts MemoryManager MemoryManagerDefs MemoryManagerSpec.
Local Open Scope list_scope.

Lemma post_init_unfold cfg w :
  let info := telemetry w (queries w) in
  let max_allowed := (total_gb info - min_free_ram_gb cfg)%Q in
  let capped :=
    if fgt (max_memory_gb cfg) (Finite max_allowed) then Finite max_allowed
    else max_memory_gb cfg in
  let low := Qltb (available_gb info) (warning_threshold_gb cfg) in
  let cfg' := fst (post_init cfg w) in
  max_memory_gb cfg' = (if low then fmin capped (Finite 2) else capped) /\
  max_duration_seconds cfg' =
    (if low then Z.min (max_duration_seconds cfg) 60
     else max_duration_seconds cfg) /\
  enable_lm cfg' = (if low then false else enable_lm cfg) /\
  min_free_ram_gb cfg' = min_free_ram_gb cfg.
Proof. cbv zeta. repeat split; reflexivity. Qed.

Lemma post_init_memory_bounds cfg w :
  max_memory_gb cfg <> NaN ->
  let cfg' := fst (post_init cfg w) in
  fle (max_memory_gb cfg') (max_memory_gb cfg) /\
  fle (max_memory_gb cfg')
      (Finite (total_gb (telemetry w (queries w)) - min_free_ram_gb cfg)).
Proof.
  intros Hnan. cbv zeta.
  destruct (post_init_unfold cfg w) as (Hm & _). cbv zeta in *.
  rewrite Hm.
  set (max_allowed := (total_gb (telemetry w (queries w))
                         - min_free_ram_gb cfg)%Q).
  assert (Hcap : forall capped,
    capped = (if fgt (max_memory_gb cfg) (Finite max_allowed)
              then Finite max_allowed else max_memory_gb cfg) ->
    capped <> NaN /\
    fle capped (max_memory_gb cfg) /\ fle capped (Finite max_allowed)).
  { intros capped ->. unfold fgt.
    destruct (flt (Finite max_allowed) (max_memory_gb cfg)) eqn:E.
    - split; [discriminate|].
      split; [apply flt_fle; exact E|exact (Qle_refl _)].
    - split; [exact Hnan|]. split; [apply fle_refl; exact Hnan|].
      apply flt_false_fle; [discriminate|exact Hnan|exact E]. }
  destruct (Hcap _ eq_refl) as (H0 & H1 & H2).
  destruct (Qltb _ (warning_threshold_gb cfg)); [|auto].
  split; (eapply fle_trans; [apply fmin_fle_l; exact H0|assumption]).
Qed.

(** X1. For a memory ceiling that is not nan, construction never raises a
    limit: the ceiling ends at most at the requested one and at most at the
    total RAM less the floor, the duration at most at the requested one, the
    LM stays off if it was off, and the floor is kept. *)
Theorem post_init_only_lowers cfg w :
  max_memory_gb cfg <> NaN ->
  let info := telemetry w (queries w) in
  let cfg' := fst (post_init cfg w) in
  fle (max_memory_gb cfg') (max_memory_gb cfg) /\
  fle (max_memory_gb cfg') (Finite (total_gb info - min_free_ram_gb cfg)) /\
  max_duration_seconds cfg' <= max_duration_seconds cfg /\
  (enable_lm cfg = false -> enable_lm cfg' = false) /\
  min_free_ram_gb cfg' = min_free_ram_gb cfg.
Proof.
  intros Hnan. cbv zeta.
  destruct (post_init_memory_bounds cfg w Hnan) as (H1 & H2).
  destruct (post_init_unfold cfg w) as (_ & Hd & Hl & Hf). cbv zeta in *.
  rewrite Hd, Hl, Hf. split; [exact H1|]. split; [exact H2|].
  destruct (Qltb _ (warning_threshold_gb cfg)); repeat split; auto; lia.
Qed.

Lemma post_init_only_lowers_at_5GB :
  let cfg := MemoryConfig_defaults in
  let cfg' := fst (post_init cfg (steady_world 5)) in
  max_memory_gb cfg <> NaN /\
  fle (max_memory_gb cfg') (max_memory_gb cfg) /\
  fle (max_memory_gb cfg') (Finite (16 - min_free_ram_gb cfg)) /\
  max_duration_seconds cfg' <= max_duration_seconds cfg /\
  (enable_lm cfg = false -> enable_lm cfg' = false) /\
  min_free_ram_gb cfg' = min_free_ram_gb cfg.
Proof.
  cbv zeta.
  assert (H : max_memory_gb MemoryConfig_defaults <> NaN) by discriminate.
  split; [exact H|].
  exact (post_init_only_lowers MemoryConfig_defaults (steady_world 5) H).
Defined.

(** A ceiling of nan passes both caps: it is greater than nothing, and
    [min(nan, 2.0)] is nan. *)
Example post_init_keeps_nan :
  let cfg :=
    {| max_memory_gb := NaN; min_free_ram_gb := 5;
       gpu_memory_fraction := 9 # 10; max_duration_seconds := 180;
       max_batch_size := 1; offload_to_cpu := true;
       offload_dit_to_cpu := true; enable_lm := false;
       aggressive_gc := true; clear_cuda_cache := true;
       pre_check_memory := true; warning_threshold_gb := 6;
       critical_threshold_gb := 4 |} in
  max_memory_gb (fst (post_init cfg (steady_world 5))) = NaN /\
  max_memory_gb (fst (post_init cfg (steady_world 9))) = NaN.
Proof. split; reflexivity. Qed.

(** X2. Built while less than the warning threshold is available, a
    configuration whose ceiling is not nan allows at most 2 GB and 60
    seconds, and no LM. *)
Theorem post_init_low_memory cfg w :
  max_memory_gb cfg <> NaN ->
  (available_gb (telemetry w (queries w)) < warning_threshold_gb cfg)%Q ->
  let cfg' := fst (post_init cfg w) in
  fle (max_memory_gb cfg') (Finite 2) /\
  max_duration_seconds cfg' <= 60 /\
  enable_lm cfg' = false.
Proof.
  intros Hnan Hlow. cbv zeta.
  destruct (post_init_unfold cfg w) as (Hm & Hd & Hl & _). cbv zeta in *.
  apply Qltb_lt in Hlow. rewrite Hlow in Hm, Hd, Hl.
  rewrite Hm, Hd, Hl. split; [|split; [lia|reflexivity]].
  apply fmin_fle_r; [|discriminate].
  unfold fgt. destruct (flt _ (max_memory_gb cfg)); [discriminate|exact Hnan].
Qed.

Lemma post_init_low_memory_at_5GB :
  max_memory_gb MemoryConfig_defaults <> NaN /\
  (available_gb (telemetry (steady_world 5) (queries (steady_world 5)))
     < warning_threshold_gb MemoryConfig_defaults)%Q /\
  fle (max_memory_gb (fst (post_init MemoryConfig_defaults (steady_world 5))))
      (Finite 2) /\
  max_duration_seconds (fst (post_init MemoryConfig_defaults (steady_world 5)))
    <= 60 /\
  enable_lm (fst (post_init MemoryConfig_defaults (steady_world 5))) = false.
Proof.
  assert (Hn : max_memory_gb MemoryConfig_defaults <> NaN) by discriminate.
  assert (H : (available_gb (telemetry (steady_world 5)
                               (queries (steady_world 5)))
               < warning_threshold_gb MemoryConfig_defaults)%Q)
    by reflexivity.
  split; [exact Hn|]. split; [exact H|].
  exact (post_init_low_memory MemoryConfig_defaults (steady_world 5) Hn H).
Defined.

(** X3. When [ACESTEP_MEMORY_LIMIT_GB] (4 GB when unset) is not nan, the
    ceiling that [_load_config] ends with is at most that limit, at most
    [MAX_CUDA_VRAM] when that is set and not nan, and at most the total RAM
    less 5 GB. *)
Theorem load_config_memory_ceiling env w :
  default (Finite DEFAULT_MEMORY_LIMIT_GB) (env_memory_limit env) <> NaN ->
  let cfg := fst (_load_config env w) in
  fle (max_memory_gb cfg)
      (default (Finite DEFAULT_MEMORY_LIMIT_GB) (env_memory_limit env)) /\
  (forall vram, env_max_cuda_vram env = Some vram -> vram <> NaN ->
     fle (max_memory_gb cfg) vram) /\
  fle (max_memory_gb cfg)
      (Finite (total_gb (telemetry w (queries w)) - MIN_FREE_RAM_GB)).
Proof.
  intros Hnan. cbv zeta. unfold _load_config.
  set (limit := default (Finite DEFAULT_MEMORY_LIMIT_GB)
                  (env_memory_limit env)) in *.
  set (limit2 := match env_max_cuda_vram env with
                 | Some vram => fmin limit vram
                 | None => limit
                 end).
  assert (Hnan2 : limit2 <> NaN).
  { subst limit2. destruct (env_max_cuda_vram env) as [vram|]; [|exact Hnan].
    unfold fmin. destruct (flt vram limit) eqn:E; [|exact Hnan].
    intros ->. discriminate E. }
  match goal with |- context [post_init ?c w] =>
    destruct (post_init_memory_bounds c w Hnan2) as (H1 & H2);
    set (cfg := fst (post_init c w)) in *
  end.
  cbv zeta in H1, H2. cbn [max_memory_gb min_free_ram_gb] in H1, H2.
  split; [|split].
  - eapply fle_trans; [exact H1|]. subst limit2.
    destruct (env_max_cuda_vram env) as [vram|];
      [apply fmin_fle_l|apply fle_refl]; exact Hnan.
  - intros vram Hv Hvn. eapply fle_trans; [exact H1|]. subst limit2.
    rewrite Hv. apply fmin_fle_r; assumption.
  - exact H2.
Qed.

Lemma load_config_memory_ceiling_vram_2GB :
  let env :=
    {| env_memory_limit := Some (Finite 8); env_max_cuda_vram := Some (Finite 2);
       env_offload_to_cpu := None; env_offload_dit_to_cpu := None;
       env_init_lm_default := None; env_max_duration := None;
       env_max_batch_size := None |} in
  let cfg := fst (_load_config env (steady_world 9)) in
  default (Finite DEFAULT_MEMORY_LIMIT_GB) (env_memory_limit env) <> NaN /\
  max_memory_gb cfg = Finite 2 /\
  fle (max_memory_gb cfg) (Finite 8) /\
  fle (max_memory_gb cfg) (Finite (16 - MIN_FREE_RAM_GB)).
Proof.
  cbv zeta.
  set (env := {| env_memory_limit := Some (Finite 8);
       env_max_cuda_vram := Some (Finite 2);
       env_offload_to_cpu := None; env_offload_dit_to_cpu := None;
       env_init_lm_default := None; env_max_duration := None;
       env_max_batch_size := None |}).
  assert (H : default (Finite DEFAULT_MEMORY_LIMIT_GB) (env_memory_limit env)
              <> NaN) by discriminate.
  split; [exact H|]. split; [reflexivity|].
  destruct (load_config_memory_ceiling env (steady_world 9) H)
    as (H1 & _ & H3).
  split; [exact H1|exact H3].
Defined.

(** *** validate_generation_params *)

(** the duration ceiling of the reading [available] *)
Lemma validate_generation_params_unfold self duration batch_size w :
  let available := next_available w in
  let max_duration :=
    if Qltb available 6 then 60
    else if Qltb available 8 then 120
    else max_duration_seconds (config self) in
  let clamp := fgt duration (Finite (inject_Z max_duration)) in
  fst (validate_generation_params self duration batch_size w) =
    (if clamp then Finite (float_of_int max_duration) else duration,
     if (batch_size >? 1)%Z then 1 else batch_size,
     join " | "
       ((if clamp then [msg_duration duration max_duration available]
         else [])
        ++ (if (batch_size >? 1)%Z then [msg_batch batch_size] else []))).
Proof.
  cbv zeta. unfold validate_generation_params, ram_available_gb,
    get_system_memory_info, bind, ret, next_available.
  cbv beta iota zeta.
  case_duration; cbv beta iota;
    destruct (batch_size >? 1)%Z; reflexivity.
Qed.

(** the ceiling of a tier is an int that [float] represents exactly, when
    the configured maximum is one *)
Lemma tier_exact self (available : Q) :
  Z.abs (max_duration_seconds (config self)) <= 2 ^ 53 ->
  let max_duration :=
    if Qltb available 6 then 60
    else if Qltb available 8 then 120
    else max_duration_seconds (config self) in
  float_of_int max_duration = inject_Z max_duration.
Proof.
  intros Hexact. cbv zeta.
  destruct (Qltb available 6); [reflexivity|].
  destruct (Qltb available 8); [reflexivity|].
  apply float_of_int_exact. exact Hexact.
Qed.

(** X5. With a configured maximum that [float] represents exactly (up to
    2^53), a duration that is not nan comes back no longer than asked and
    no longer than the tier allows: 60 s under 6 GB, 120 s under 8 GB, the
    configured maximum from 8 GB on. The warning is empty exactly when
    duration and batch size come back as they were given. *)
Theorem validate_generation_params_clamp self duration batch_size w :
  Z.abs (max_duration_seconds (config self)) <= 2 ^ 53 ->
  let available := next_available w in
  let r := fst (validate_generation_params self duration batch_size w) in
  (duration <> NaN ->
   fle (returned_duration r) duration /\
   ((available < 6)%Q -> fle (returned_duration r) (Finite 60)) /\
   ((available < 8)%Q -> fle (returned_duration r) (Finite 120)) /\
   ((8 <= available)%Q ->
    fle (returned_duration r)
        (Finite (inject_Z (max_duration_seconds (config self)))))) /\
  (returned_warning r = [] <->
   returned_duration r = duration /\ returned_batch_size r = batch_size).
Proof.
  intros Hexact. cbv zeta. rewrite validate_generation_params_unfold. cbv zeta.
  unfold returned_duration, returned_warning, returned_batch_size.
  cbn [fst snd].
  pose proof (tier_exact self (next_available w) Hexact) as Hfloat.
  cbv zeta in Hfloat.
  set (available := next_available w) in *.
  set (max_duration := if Qltb available 6 then 60
                       else if Qltb available 8 then 120
                       else max_duration_seconds (config self)) in *.
  rewrite Hfloat.
  assert (Htier : ((available < 6)%Q -> max_duration = 60) /\
                  ((available < 8)%Q -> max_duration <= 120) /\
                  ((8 <= available)%Q ->
                   max_duration = max_duration_seconds (config self))).
  { subst max_duration.
    destruct (Qltb available 6) eqn:H6; destruct (Qltb available 8) eqn:H8;
      try apply Qltb_lt in H6; try apply Qltb_lt in H8;
      try apply Qltb_ge in H6; try apply Qltb_ge in H8;
      repeat split; intros; try reflexivity; try lia; exfalso; lra. }
  destruct Htier as (T6 & T8 & T9). clearbody max_duration.
  split.
  - intros Hnan.
    assert (Hret :
      fle (if fgt duration (Finite (inject_Z max_duration))
           then Finite (inject_Z max_duration) else duration) duration /\
      fle (if fgt duration (Finite (inject_Z max_duration))
           then Finite (inject_Z max_duration) else duration)
          (Finite (inject_Z max_duration))).
    { unfold fgt. destruct (flt _ duration) eqn:E.
      - split; [apply flt_fle; exact E|exact (Qle_refl _)].
      - split; [apply fle_refl; exact Hnan|].
        apply flt_false_fle; [discriminate|exact Hnan|exact E]. }
    destruct Hret as [Hle Hceil].
    split; [exact Hle|]. split; [|split].
    + intros H6. specialize (T6 H6). subst max_duration. exact Hceil.
    + intros H8. eapply fle_trans; [exact Hceil|].
      specialize (T8 H8). change (inject_Z max_duration <= inject_Z 120)%Q.
      rewrite <- Zle_Qle. exact T8.
    + intros H8. specialize (T9 H8). subst max_duration. exact Hceil.
  - destruct (fgt duration (Finite (inject_Z max_duration))) eqn:E;
      destruct (Z.gtb_spec batch_size 1) as [Hb|Hb]; cbn [app join].
    + split; [discriminate|]. intros [_ Hbs]. lia.
    + split; [discriminate|]. intros [Hd _]. rewrite <- Hd in E.
      unfold fgt in E. cbn [flt] in E.
      apply Qltb_lt in E. exfalso. exact (Qlt_irrefl _ E).
    + split; [discriminate|]. intros [_ Hbs]. lia.
    + split; auto.
Qed.

Lemma validate_generation_params_clamp_at_7GB :
  let r := fst (validate_generation_params default_manager 300 4
                  (steady_world 7)) in
  Z.abs (max_duration_seconds (config default_manager)) <= 2 ^ 53 /\
  r = (Finite 120, 1, join " | " [msg_duration 300 120 7; msg_batch 4]) /\
  fle (returned_duration r) (Finite 300) /\
  fle (returned_duration r) (Finite 120).
Proof.
  cbv zeta.
  assert (H : Z.abs (max_duration_seconds (config default_manager)) <= 2 ^ 53)
    by (vm_compute; discriminate).
  split; [exact H|]. split; [reflexivity|].
  destruct (validate_generation_params_clamp default_manager 300 4
              (steady_world 7) H) as (Hb & _).
  cbv zeta in Hb.
  destruct (Hb ltac:(discriminate)) as (H1 & _ & H3 & _).
  split; [exact H1|]. apply H3. reflexivity.
Defined.

(** A duration of nan is greater than nothing and comes back as it is. *)
Example validate_generation_params_nan :
  fst (validate_generation_params default_manager NaN 1 (steady_world 5)) =
    (NaN, 1, []).
Proof. reflexivity. Qed.

(** Beyond 2^53 [float] rounds: with 2^53 + 3 seconds configured, a longer
    duration comes back as 2^53 + 4. *)
Example validate_generation_params_rounds_up :
  let self :=
    {| config :=
         {| max_memory_gb := 4; min_free_ram_gb := 5;
            gpu_memory_fraction := 9 # 10;
            max_duration_seconds := 2 ^ 53 + 3;
            max_batch_size := 1; offload_to_cpu := true;
            offload_dit_to_cpu := true; enable_lm := false;
            aggressive_gc := true; clear_cuda_cache := true;
            pre_check_memory := true; warning_threshold_gb := 6;
            critical_threshold_gb := 4 |};
       _generation_count := 0 |} in
  returned_duration
    (fst (validate_generation_params self PosInf 1 (steady_world 9))) =
    Finite (inject_Z (2 ^ 53 + 4)).
Proof. reflexivity. Qed.

(** X6. With a configured maximum that [float] represents exactly (up to
    2^53), validating what a validation returned, at the same reading,
    changes nothing and warns of nothing. *)
Theorem validate_generation_params_idempotent self duration batch_size w w2 :
  Z.abs (max_duration_seconds (config self)) <= 2 ^ 53 ->
  next_available w2 = next_available w ->
  let r := fst (validate_generation_params self duration batch_size w) in
  fst (validate_generation_params self (returned_duration r)
         (returned_batch_size r) w2) =
    (returned_duration r, returned_batch_size r, []).
Proof.
  intros Hexact Hsame. cbv zeta.
  rewrite !validate_generation_params_unfold. cbv zeta. rewrite Hsame.
  unfold returned_duration, returned_batch_size. cbn [fst snd].
  pose proof (tier_exact self (next_available w) Hexact) as Hfloat.
  cbv zeta in Hfloat.
  set (max_duration := if Qltb (next_available w) 6 then 60
                       else if Qltb (next_available w) 8 then 120
                       else max_duration_seconds (config self)) in *.
  rewrite Hfloat.
  assert (Hd : fgt (if fgt duration (Finite (inject_Z max_duration))
                    then Finite (inject_Z max_duration) else duration)
                 (Finite (inject_Z max_duration)) = false).
  { destruct (fgt duration _) eqn:E; [|exact E].
    unfold fgt. cbn [flt]. apply Qltb_ge. apply Qle_refl. }
  assert (Hb : ((if (batch_size >? 1)%Z then 1 else batch_size) >? 1)%Z
               = false).
  { destruct (Z.gtb_spec batch_size 1); lia. }
  rewrite Hd, Hb. reflexivity.
Qed.

Lemma validate_generation_params_idempotent_at_7GB :
  Z.abs (max_duration_seconds (config default_manager)) <= 2 ^ 53 /\
  next_available (steady_world 7) = next_available (steady_world 7) /\
  fst (validate_generation_params default_manager 120 1 (steady_world 7)) =
    (Finite 120, 1, []) /\
  fst (validate_generation_params default_manager 300 4 (steady_world 7)) =
    (Finite 120, 1,
     join " | " [msg_duration 300 120 7; msg_batch 4]).
Proof.
  assert (H : Z.abs (max_duration_seconds (config default_manager)) <= 2 ^ 53)
    by (vm_compute; discriminate).
  split; [exact H|]. split; [reflexivity|]. split; [|reflexivity].
  exact (validate_generation_params_idempotent default_manager 300 4
           (steady_world 7) (steady_world 7) H eq_refl).
Defined.

(** *** get_generation_constraints, get_status, check_startup_memory *)

Lemma get_generation_constraints_unfold self w :
  let available := next_available w in
  let c := fst (get_generation_constraints self w) in
  c_available_memory_gb c = available /\
  c_max_batch_size c = 1 /\
  c_lm_enabled c = enable_lm (config self) && Qgtb available 8 /\
  (c_max_duration_seconds c, c_memory_tier c) =
    (if Qltb available 6 then (60, "critical")
     else if Qltb available 8 then (120, "low")
     else if Qltb available 10 then (180, "normal")
     else (max_duration_seconds (config self), "optimal")).
Proof.
  cbv zeta. unfold get_generation_constraints, ram_available_gb,
    get_system_memory_info, bind, ret, next_available.
  cbv beta iota zeta.
  destruct (Qltb _ 6); [cbn; auto|].
  destruct (Qltb _ 8); [cbn; auto|].
  destruct (Qltb _ 10); cbn; auto.
Qed.

(** X7. With a configured maximum that [float] represents exactly (up to
    2^53), below 8 GB and from 10 GB on, the duration that
    [validate_generation_params] returns for a duration that is not nan is
    within the maximum that [get_generation_constraints] reports for the
    same reading. *)
Theorem validated_duration_within_constraints self duration batch_size w w2 :
  Z.abs (max_duration_seconds (config self)) <= 2 ^ 53 ->
  duration <> NaN ->
  next_available w2 = next_available w ->
  (next_available w < 8)%Q \/ (10 <= next_available w)%Q ->
  let r := fst (validate_generation_params self duration batch_size w) in
  let c := fst (get_generation_constraints self w2) in
  fle (returned_duration r) (Finite (inject_Z (c_max_duration_seconds c))).
Proof.
  intros Hexact Hnan Hsame Hrange. cbv zeta.
  destruct (get_generation_constraints_unfold self w2) as (_ & _ & _ & Hc).
  cbv zeta in Hc. rewrite Hsame in Hc.
  rewrite validate_generation_params_unfold. cbv zeta.
  unfold returned_duration. cbn [fst].
  pose proof (tier_exact self (next_available w) Hexact) as Hfloat.
  cbv zeta in Hfloat. rewrite Hfloat. clear Hfloat.
  set (available := next_available w) in *.
  assert (Hmax : (if Qltb available 6 then 60
                  else if Qltb available 8 then 120
                  else max_duration_seconds (config self))
                 = c_max_duration_seconds
                     (fst (get_generation_constraints self w2))).
  { destruct (Qltb available 6) eqn:H6; [congruence|].
    destruct (Qltb available 8) eqn:H8; [congruence|].
    destruct (Qltb available 10) eqn:H10; [|congruence].
    apply Qltb_ge in H8. apply Qltb_lt in H10.
    exfalso. destruct Hrange; lra. }
  rewrite Hmax. unfold fgt. destruct (flt _ duration) eqn:E.
  - exact (Qle_refl _).
  - apply flt_false_fle; [discriminate|exact Hnan|exact E].
Qed.

Lemma validated_duration_within_constraints_at_7GB :
  Z.abs (max_duration_seconds (config default_manager)) <= 2 ^ 53 /\
  Finite 300 <> NaN /\
  next_available (steady_world 7) = next_available (steady_world 7) /\
  ((next_available (steady_world 7) < 8)%Q \/
   (10 <= next_available (steady_world 7))%Q) /\
  fle (returned_duration
         (fst (validate_generation_params default_manager 300 1
                 (steady_world 7))))
      (Finite (inject_Z
         (c_max_duration_seconds
            (fst (get_generation_constraints default_manager
                    (steady_world 7)))))).
Proof.
  assert (He : Z.abs (max_duration_seconds (config default_manager))
               <= 2 ^ 53) by (vm_compute; discriminate).
  assert (Hn : Finite 300 <> NaN) by discriminate.
  assert (H : (next_available (steady_world 7) < 8)%Q \/
              (10 <= next_available (steady_world 7))%Q)
    by (left; reflexivity).
  split; [exact He|]. split; [exact Hn|].
  split; [reflexivity|]. split; [exact H|].
  exact (validated_duration_within_constraints default_manager 300 1
           (steady_world 7) (steady_world 7) He Hn eq_refl H).
Defined.

(** Between 8 and 10 GB the two disagree when the configured maximum is
    above 180 s: with 600 s configured and 9 GB free, 600 s pass the
    validation while the constraints report 180 s. *)
Example validated_duration_above_constraints_at_9GB :
  let self :=
    {| config :=
         {| max_memory_gb := 4; min_free_ram_gb := 5;
            gpu_memory_fraction := 9 # 10; max_duration_seconds := 600;
            max_batch_size := 1; offload_to_cpu := true;
            offload_dit_to_cpu := true; enable_lm := false;
            aggressive_gc := true; clear_cuda_cache := true;
            pre_check_memory := true; warning_threshold_gb := 6;
            critical_threshold_gb := 4 |};
       _generation_count := 0 |} in
  fst (validate_generation_params self 600 1 (steady_world 9)) =
    (Finite 600, 1, []) /\
  c_max_duration_seconds
    (fst (get_generation_constraints self (steady_world 9))) = 180.
Proof. split; reflexivity. Qed.

(** X8. The constraints report the LM as enabled only when it is configured
    and more than 8 GB are available, so never in the tiers "critical" and
    "low"; and they report the tier "critical" exactly under 6 GB. *)
Theorem constraints_lm_needs_headroom self w :
  let c := fst (get_generation_constraints self w) in
  (c_lm_enabled c = true ->
   enable_lm (config self) = true /\
   (8 < c_available_memory_gb c)%Q /\
   c_memory_tier c <> "critical" /\ c_memory_tier c <> "low") /\
  (c_memory_tier c = "critical" <-> (c_available_memory_gb c < 6)%Q).
Proof.
  cbv zeta.
  destruct (get_generation_constraints_unfold self w) as (Ha & _ & Hl & Hc).
  cbv zeta in *. rewrite Ha, Hl.
  set (available := next_available w) in *.
  assert (Htier : c_memory_tier (fst (get_generation_constraints self w)) =
    snd (if Qltb available 6 then (60, "critical")
         else if Qltb available 8 then (120, "low")
         else if Qltb available 10 then (180, "normal")
         else (max_duration_seconds (config self), "optimal")))
    by (rewrite <- Hc; reflexivity).
  rewrite Htier. split.
  - intros Hlm. apply andb_true_iff in Hlm as [Hcfg Hgt].
    apply Qgtb_gt in Hgt. split; [exact Hcfg|]. split; [exact Hgt|].
    assert (H6 : Qltb available 6 = false) by (apply Qltb_ge; lra).
    assert (H8 : Qltb available 8 = false) by (apply Qltb_ge; lra).
    rewrite H6, H8. destruct (Qltb available 10); split; discriminate.
  - destruct (Qltb available 6) eqn:H6.
    + apply Qltb_lt in H6. split; auto.
    + apply Qltb_ge in H6. split.
      * destruct (Qltb available 8); [discriminate|].
        destruct (Qltb available 10); discriminate.
      * intros Hlt. exfalso. lra.
Qed.

(** X9. For the manager that [__init__] builds, [check_startup_memory] and
    [can_generate(0.0)] give the same answer on the same reading. *)
Theorem check_startup_memory_is_admission_of_nothing env w0 w :
  fst (check_startup_memory w) =
  fst (fst (can_generate (fst (__init__ env w0)) 0 w)).
Proof.
  rewrite can_generate_unfold. cbv zeta.
  unfold check_startup_memory, bind, ret, get_system_memory_info.
  cbv beta iota zeta. fold (next_available w).
  change (min_free_ram_gb (config (fst (__init__ env w0))))
    with MIN_FREE_RAM_GB.
  change (critical_threshold_gb (config (fst (__init__ env w0))))
    with 4%Q.
  destruct (Qltb (next_available w) MIN_FREE_RAM_GB) eqn:H5; [reflexivity|].
  apply Qltb_ge in H5. unfold MIN_FREE_RAM_GB in *.
  assert (H0 : Qltb (next_available w - 0) 5 = false)
    by (apply Qltb_ge; lra).
  assert (H4 : Qltb (next_available w) 4 = false)
    by (apply Qltb_ge; lra).
  rewrite H0, H4.
  destruct (Qltb (next_available w) (warning_threshold_gb _)); reflexivity.
Qed.

(** X10. [get_status] reports the memory as unhealthy exactly when
    [can_generate], on the same reading, refuses with the message of the
    floor, whatever the cost. *)
Theorem get_status_unhealthy_iff_blocked self w (estimated_memory_gb : Q) :
  s_healthy (fst (get_status self w)) = false <->
  fst (can_generate self estimated_memory_gb w) =
    (false, msg_blocked (next_available w) (min_free_ram_gb (config self))).
Proof.
  rewrite can_generate_unfold. cbv zeta.
  assert (Hh : s_healthy (fst (get_status self w)) =
               negb (Qltb (next_available w) (min_free_ram_gb (config self)))).
  { unfold get_status, get_generation_constraints, ram_available_gb,
      get_system_memory_info, bind, ret, next_available.
    cbv beta iota zeta. cbn [fst snd telemetry queries].
    repeat match goal with
    | |- context [if Qltb ?a ?b then _ else _] =>
        lazymatch b with
        | 6%Q => destruct (Qltb a b) | 8%Q => destruct (Qltb a b)
        | 10%Q => destruct (Qltb a b)
        end
    end; cbn; unfold Qltb, Qgeb; rewrite negb_involutive; reflexivity. }
  rewrite Hh.
  destruct (Qltb (next_available w) (min_free_ram_gb (config self))).
  - split; reflexivity.
  - cbn [negb]. split; [discriminate|].
    destruct (Qltb (_ - _)%Q _); [discriminate|].
    destruct (Qltb _ (critical_threshold_gb _)).
    + destruct (fst (emergency_memory_cleanup _)); discriminate.
    + destruct (Qltb _ _); discriminate.
Qed.

(** *** memory_limit_decorator, check_memory_available *)

(** The decorator is the context manager around the call of the function:
    same check, same cleanup in the [finally]. *)
Lemma memory_limit_decorator_is_generation_context {A} manager required_gb
    (func : Region A) w :
  memory_limit_decorator manager required_gb func w
    = generation_context manager required_gb func w.
Proof. reflexivity. Qed.

Lemma check_memory_available_is_can_generate self required_gb w :
  check_memory_available self required_gb w = can_generate self required_gb w.
Proof. reflexivity. Qed.

(** *** Instances *)

(** Seven cleanups from a count of 0 reach the count 7, with one deep
    cleanup, at the fifth. *)
Lemma cleanups_every_fifth_seven :
  aggressive_gc (config default_manager) = true /\
  _generation_count (fst (cleanups 7 default_manager (steady_world 9))) = 7 /\
  count ForceCleanup (trace (snd (cleanups 7 default_manager (steady_world 9))))
    = 7%nat /\
  count EmergencyCleanup
    (trace (snd (cleanups 7 default_manager (steady_world 9)))) = 1%nat.
Proof.
  split; [reflexivity|].
  destruct (cleanups_every_fifth 7 default_manager (steady_world 9) eq_refl)
    as (_ & Hcount & evs & Htrace & Hforce & Hdeep).
  split; [exact Hcount|].
  cbn [steady_world trace app] in Htrace. rewrite Htrace.
  split; [exact Hforce|].
  apply Nat2Z.inj. rewrite Hdeep. reflexivity.
Defined.

(** The manager of an empty environment on a machine with 9 GB free
    admits a cost of 2 GB. *)
Lemma can_generate_above_floor_as_loaded_empty_environment :
  let env :=
    {| env_memory_limit := None; env_max_cuda_vram := None;
       env_offload_to_cpu := None; env_offload_dit_to_cpu := None;
       env_init_lm_default := None; env_max_duration := None;
       env_max_batch_size := None |} in
  let self := fst (__init__ env (steady_world 9)) in
  (min_free_ram_gb (config self) <= next_available (steady_world 9))%Q /\
  (min_free_ram_gb (config self) <= next_available (steady_world 9) - 2)%Q /\
  fst (fst (can_generate self 2 (steady_world 9))) = true.
Proof.
  cbv zeta.
  set (env := {| env_memory_limit := None; env_max_cuda_vram := None;
       env_offload_to_cpu := None; env_offload_dit_to_cpu := None;
       env_init_lm_default := None; env_max_duration := None;
       env_max_batch_size := None |}).
  assert (H1 : (min_free_ram_gb (config (fst (__init__ env (steady_world 9))))
                  <= next_available (steady_world 9))%Q)
    by (vm_compute; discriminate).
  assert (H2 : (min_free_ram_gb (config (fst (__init__ env (steady_world 9))))
                  <= next_available (steady_world 9) - 2)%Q)
    by (vm_compute; discriminate).
  split; [exact H1|]. split; [exact H2|].
  exact (can_generate_above_floor_as_loaded env (steady_world 9)
           (steady_world 9) 2 H1 H2).
Defined.

(** With the LM configured and 9 GB free the constraints enable it, in the
    tier "normal". *)
Lemma constraints_lm_needs_headroom_at_9GB :
  let self :=
    {| config :=
         {| max_memory_gb := 4; min_free_ram_gb := 5;
            gpu_memory_fraction := 9 # 10; max_duration_seconds := 180;
            max_batch_size := 1; offload_to_cpu := true;
            offload_dit_to_cpu := true; enable_lm := true;
            aggressive_gc := true; clear_cuda_cache := true;
            pre_check_memory := true; warning_threshold_gb := 6;
            critical_threshold_gb := 4 |};
       _generation_count := 0 |} in
  let c := fst (get_generation_constraints self (steady_world 9)) in
  c_lm_enabled c = true /\
  enable_lm (config self) = true /\
  (8 < c_available_memory_gb c)%Q /\
  c_memory_tier c <> "critical" /\ c_memory_tier c <> "low".
Proof.
  cbv zeta. split; [reflexivity|].
  match goal with |- context [get_generation_constraints ?s ?w] =>
    destruct (constraints_lm_needs_headroom s w) as (Hlm & _)
  end.
  apply Hlm. reflexivity.
Defined.

End MemoryManagerExtra.

(** ** The rate limiter *)

Module SecurityExtra.
Import Py PyFacts Security SecurityDefs SecuritySpec.
Local Open Scope list_scope.

Lemma is_allowed_unfold self id now :
  RL.is_allowed self id now =
  let kept := prune (RL.window_seconds self) now (RL.requests_of self id) in
  if (Z.of_nat (length kept) >=? RL.max_requests self)%Z
  then ((false, 0), RL.set_requests self id kept)
  else ((true, RL.max_requests self - Z.of_nat (length kept) - 1),
        RL.set_requests self id (kept ++ [now])).
Proof. reflexivity. Qed.

Lemma requests_of_set_ne self id id' l :
  id <> id' -> RL.requests_of (RL.set_requests self id l) id'
               = RL.requests_of self id'.
Proof.
  intros Hne. unfold RL.requests_of, RL.set_requests. cbn.
  rewrite lookup_insert_ne; auto.
Qed.

Lemma is_allowed_requests_of self id now id' :
  RL.requests_of (snd (RL.is_allowed self id now)) id' =
  if decide (id = id')
  then (let kept :=
          prune (RL.window_seconds self) now (RL.requests_of self id) in
        if (Z.of_nat (length kept) >=? RL.max_requests self)%Z
        then kept else kept ++ [now])
  else RL.requests_of self id'.
Proof.
  rewrite is_allowed_unfold. cbv zeta.
  destruct (decide (id = id')) as [<-|Hne];
    destruct (_ >=? _)%Z; cbn [snd];
    rewrite ?requests_of_set, ?requests_of_set_ne by assumption; reflexivity.
Qed.

Lemma is_allowed_config self id now :
  RL.max_requests (snd (RL.is_allowed self id now)) = RL.max_requests self /\
  RL.window_seconds (snd (RL.is_allowed self id now))
    = RL.window_seconds self.
Proof.
  rewrite is_allowed_unfold. cbv zeta. destruct (_ >=? _)%Z; auto.
Qed.

Lemma prune_length window now l :
  (length (prune window now l) <= length l)%nat.
Proof. apply filter_length_le. Qed.

Lemma prune_length_stale window now l :
  Exists (fun t => ~ live window now t) l ->
  (length (prune window now l) < length l)%nat.
Proof.
  induction 1 as [t l Ht|t l _ IH]; unfold prune in *; cbn [List.filter].
  - destruct (Qgtb t _) eqn:E.
    + apply Qgtb_gt in E. contradiction.
    + pose proof (filter_length_le
                    (fun t => Qgtb t (now - inject_Z window)%Q) l).
      cbn [length]. lia.
  - destruct (Qgtb t _); cbn [length]; lia.
Qed.

(** X12. A call for one identity leaves the timestamps of every other identity
    as they were, and so the answer that another identity gets. *)
Theorem is_allowed_other_identity self id id' now now' :
  id <> id' ->
  let self' := snd (RL.is_allowed self id now) in
  RL.requests_of self' id' = RL.requests_of self id' /\
  fst (RL.is_allowed self' id' now') = fst (RL.is_allowed self id' now').
Proof.
  intros Hne. cbv zeta.
  assert (Hreq : RL.requests_of (snd (RL.is_allowed self id now)) id'
                 = RL.requests_of self id').
  { rewrite is_allowed_requests_of. destruct (decide (id = id')); congruence. }
  split; [exact Hreq|].
  destruct (is_allowed_config self id now) as [Hm Hw].
  rewrite (is_allowed_unfold (snd (RL.is_allowed self id now)) id' now'),
    (is_allowed_unfold self id' now').
  cbv zeta. rewrite Hreq, Hm, Hw.
  destruct (_ >=? _)%Z; reflexivity.
Qed.

Lemma is_allowed_other_identity_two_hosts :
  "10.0.0.7" <> "10.0.0.8" /\
  fst (RL.is_allowed (snd (RL.is_allowed (RL.__init__ 1 60) "10.0.0.7" 0))
         "10.0.0.8" 1) = (true, 0) /\
  fst (RL.is_allowed (snd (RL.is_allowed (RL.__init__ 1 60) "10.0.0.7" 0))
         "10.0.0.7" 1) = (false, 0).
Proof.
  assert (Hne : "10.0.0.7" <> "10.0.0.8") by discriminate.
  split; [exact Hne|]. split; [|vm_compute; reflexivity].
  destruct (is_allowed_other_identity (RL.__init__ 1 60)
              "10.0.0.7" "10.0.0.8" 0 1 Hne) as [_ H].
  rewrite H. vm_compute. reflexivity.
Defined.

(** X13. The table never outgrows the limit: if no identity has more than
    [max_requests] timestamps stored, none has after a call. An allowed call
    leaves a remaining count from 0 to [max_requests - 1]; a denied call
    stores no new timestamp, only the live ones of before. *)
Theorem is_allowed_keeps_bound self id now :
  bounded self ->
  let r := RL.is_allowed self id now in
  bounded (snd r) /\
  (fst (fst r) = true -> 0 <= snd (fst r) < RL.max_requests self) /\
  (fst (fst r) = false ->
   RL.requests_of (snd r) id =
     prune (RL.window_seconds self) now (RL.requests_of self id)).
Proof.
  intros Hb. cbv zeta. split; [|split].
  - intros id'. destruct (is_allowed_config self id now) as [Hm _].
    rewrite Hm, is_allowed_requests_of. cbv zeta.
    destruct (decide (id = id')) as [_|_]; [|apply Hb].
    pose proof (prune_length (RL.window_seconds self) now
                  (RL.requests_of self id)) as Hlen.
    specialize (Hb id).
    destruct (Z.geb_spec
      (Z.of_nat (length (prune (RL.window_seconds self) now
                           (RL.requests_of self id))))
      (RL.max_requests self)); [lia|].
    rewrite length_app. cbn [length]. lia.
  - rewrite is_allowed_unfold. cbv zeta.
    destruct (Z.geb_spec
      (Z.of_nat (length (prune (RL.window_seconds self) now
                           (RL.requests_of self id))))
      (RL.max_requests self)); cbn [fst snd]; [discriminate|]. lia.
  - rewrite is_allowed_requests_of, is_allowed_unfold. cbv zeta.
    destruct (decide (id = id)) as [_|Hne]; [|contradiction].
    destruct (_ >=? _)%Z; cbn [fst snd]; [reflexivity|discriminate].
Qed.

Lemma init_bounded max_requests window_seconds :
  0 <= max_requests -> bounded (RL.__init__ max_requests window_seconds).
Proof.
  intros H id. unfold RL.requests_of, RL.__init__. cbn.
  rewrite lookup_empty. cbn. exact H.
Qed.

Lemma is_allowed_keeps_bound_fresh :
  bounded (RL.__init__ 3 60) /\
  bounded (snd (RL.is_allowed (RL.__init__ 3 60) "X" 0)) /\
  fst (RL.is_allowed (RL.__init__ 3 60) "X" 0) = (true, 2).
Proof.
  assert (Hb : bounded (RL.__init__ 3 60)) by (apply init_bounded; lia).
  split; [exact Hb|].
  destruct (is_allowed_keeps_bound (RL.__init__ 3 60) "X" 0 Hb) as (H & _).
  split; [exact H|reflexivity].
Defined.

Lemma is_allowed_all_allowed id : forall times self recorded final,
  RL.requests_of self id = recorded ->
  (forall t c, In t (recorded ++ times) -> In c (times ++ [final]) ->
               live (RL.window_seconds self) c t) ->
  Z.of_nat (length recorded + length times) = RL.max_requests self ->
  let run := is_allowed_all self id times in
  fst run =
    map (fun k => (true, RL.max_requests self - 1 - Z.of_nat k))
      (seq (length recorded) (length times)) /\
  RL.requests_of (snd run) id = recorded ++ times /\
  RL.max_requests (snd run) = RL.max_requests self /\
  RL.window_seconds (snd run) = RL.window_seconds self.
Proof.
  induction times as [|c rest IH]; intros self recorded final Hrec Hwin Hlen;
    cbv zeta.
  - cbn. rewrite app_nil_r. auto.
  - cbn [is_allowed_all]. rewrite is_allowed_unfold. cbv zeta. rewrite Hrec.
    assert (Hkeep : prune (RL.window_seconds self) c recorded = recorded).
    { apply prune_all_live. apply List.Forall_forall. intros x Hx.
      apply Hwin; [apply in_or_app; left; exact Hx|]. cbn. left. reflexivity. }
    rewrite Hkeep.
    destruct (Z.geb_spec (Z.of_nat (length recorded)) (RL.max_requests self))
      as [Hge|Hlt]; [cbn [length] in Hlen; lia|].
    set (self1 := RL.set_requests self id (recorded ++ [c])).
    assert (Hrec1 : RL.requests_of self1 id = recorded ++ [c])
      by (unfold self1; apply requests_of_set).
    specialize (IH self1 (recorded ++ [c]) final Hrec1). cbv zeta in IH.
    destruct (is_allowed_all self1 id rest) as [ds self2]. cbn [fst snd] in *.
    change (RL.max_requests self1) with (RL.max_requests self) in IH.
    change (RL.window_seconds self1) with (RL.window_seconds self) in IH.
    destruct IH as (Hds & Hreq & Hmax & Hw).
    + intros x y Hx Hy. apply Hwin.
      * rewrite <- app_assoc in Hx. exact Hx.
      * cbn. right. exact Hy.
    + rewrite length_app. cbn [length] in *. lia.
    + rewrite length_app in Hds. cbn [length] in Hds.
      replace (length recorded + 1)%nat with (S (length recorded)) in Hds
        by lia.
      cbn [length seq map]. rewrite Hds, Hreq, <- app_assoc.
      repeat split; auto. f_equal. f_equal. lia.
Qed.

(** X14. With a limit of N >= 1 and no timestamp stored for the identity, N
    calls that all lie within one window of each other and of a further
    call are allowed, leaving N-1, ..., 1, 0, and the further call is denied
    with 0 remaining and records nothing. *)
Theorem is_allowed_denies_after_limit self id (times : list Q) (final : Q) :
  RL.requests_of self id = [] ->
  1 <= RL.max_requests self ->
  Z.of_nat (length times) = RL.max_requests self ->
  (forall t c, In t times -> In c (times ++ [final]) ->
               live (RL.window_seconds self) c t) ->
  let run := is_allowed_all self id times in
  let last := RL.is_allowed (snd run) id final in
  fst run =
    map (fun k => (true, RL.max_requests self - 1 - Z.of_nat k))
      (seq 0 (length times)) /\
  fst last = (false, 0) /\
  RL.requests_of (snd last) id = times.
Proof.
  intros Hfresh Hone Hlen Hwin. cbv zeta.
  destruct (is_allowed_all_allowed id times self [] final Hfresh)
    as (Hds & Hreq & Hmax & Hw); [exact Hwin|cbn; lia|].
  cbn [length app] in *. split; [exact Hds|].
  rewrite is_allowed_requests_of, is_allowed_unfold. cbv zeta.
  rewrite Hreq, Hmax, Hw.
  assert (Hkeep : prune (RL.window_seconds self) final times = times).
  { apply prune_all_live. apply List.Forall_forall. intros x Hx.
    apply Hwin; [exact Hx|]. apply in_or_app. right. left. reflexivity. }
  rewrite Hkeep.
  destruct (decide (id = id)) as [_|Hne]; [|contradiction].
  destruct (Z.geb_spec (Z.of_nat (length times)) (RL.max_requests self));
    [auto|lia].
Qed.

Lemma is_allowed_denies_after_limit_scenario :
  fst (is_allowed_all (RL.__init__ 3 60) "X" [1%Q; 5%Q; 9%Q]) =
    [(true, 2); (true, 1); (true, 0)] /\
  fst (RL.is_allowed (snd (is_allowed_all (RL.__init__ 3 60) "X"
                             [1%Q; 5%Q; 9%Q])) "X" 15) = (false, 0) /\
  RL.requests_of
    (snd (RL.is_allowed (snd (is_allowed_all (RL.__init__ 3 60) "X"
                                [1%Q; 5%Q; 9%Q])) "X" 15)) "X"
    = [1%Q; 5%Q; 9%Q].
Proof.
  apply (is_allowed_denies_after_limit (RL.__init__ 3 60) "X"
           [1%Q; 5%Q; 9%Q] 15%Q).
  - reflexivity.
  - cbn. lia.
  - reflexivity.
  - intros t c Ht Hc. unfold live. cbn in Ht, Hc.
    destruct Ht as [<-|[<-|[<-|[]]]];
      destruct Hc as [<-|[<-|[<-|[<-|[]]]]]; reflexivity.
Defined.

(** X15. When [get_reset_time] answers 0 for an identity that has at most
    [max_requests >= 1] timestamps stored, [is_allowed] at the same clock
    reading allows the call: a limiter that reports no wait does not
    refuse. *)
Theorem is_allowed_when_no_wait self id now :
  1 <= RL.max_requests self ->
  Z.of_nat (length (RL.requests_of self id)) <= RL.max_requests self ->
  RL.get_reset_time self id now = 0%Q ->
  fst (fst (RL.is_allowed self id now)) = true.
Proof.
  intros Hone Hlen Hzero. rewrite is_allowed_unfold. cbv zeta.
  assert (Hfew : Z.of_nat (length (prune (RL.window_seconds self) now
                                     (RL.requests_of self id)))
                 < RL.max_requests self).
  { rewrite get_reset_time_stored in Hzero.
    destruct (RL.requests_of self id) as [|t ts] eqn:Hs; [cbn; lia|].
    assert (Hstale : ~ live (RL.window_seconds self) now (min_list t ts)).
    { unfold live. intros Hl.
      assert (Hpos : (0 < min_list t ts + inject_Z (RL.window_seconds self)
                          - now)%Q) by lra.
      rewrite (max0_pos _ Hpos) in Hzero. rewrite Hzero in Hpos.
      exact (Qlt_irrefl _ Hpos). }
    assert (Hex : Exists (fun x => ~ live (RL.window_seconds self) now x)
                    (t :: ts)).
    { apply List.Exists_exists. exists (min_list t ts).
      split; [apply min_list_in|exact Hstale]. }
    apply prune_length_stale in Hex. lia. }
  destruct (Z.geb_spec
    (Z.of_nat (length (prune (RL.window_seconds self) now
                         (RL.requests_of self id))))
    (RL.max_requests self)); [lia|reflexivity].
Qed.

(** Scenario C, last step: after the three calls of 1 s, 5 s and 9 s the
    wait is over at 61 s and the call is allowed. *)
Lemma is_allowed_when_no_wait_at_61 :
  RL.get_reset_time
    (snd (is_allowed_all (RL.__init__ 3 60) "X" [1%Q; 5%Q; 9%Q])) "X" 61
    = 0%Q /\
  fst (fst (RL.is_allowed
              (snd (is_allowed_all (RL.__init__ 3 60) "X" [1%Q; 5%Q; 9%Q]))
              "X" 61)) = true.
Proof.
  assert (H0 : RL.get_reset_time
    (snd (is_allowed_all (RL.__init__ 3 60) "X" [1%Q; 5%Q; 9%Q])) "X" 61
    = 0%Q) by (vm_compute; reflexivity).
  split; [exact H0|].
  apply (is_allowed_when_no_wait _ "X" 61%Q);
    [vm_compute; discriminate|vm_compute; discriminate|exact H0].
Defined.

(** *** RateLimiter.cleanup *)

Lemma max_list_ge t ts :
  (t <= max_list t ts)%Q /\ Forall (fun x => (x <= max_list t ts)%Q) ts.
Proof.
  unfold max_list. revert t. induction ts as [|x ts IH]; intros t.
  - cbn. split; [apply Qle_refl|constructor].
  - cbn [fold_left]. destruct (Qltb t x) eqn:E.
    + apply Qltb_lt in E. destruct (IH x) as [Hx Hts].
      split; [|constructor; assumption].
      eapply Qle_trans; [apply Qlt_le_weak; exact E|exact Hx].
    + apply Qltb_ge in E. destruct (IH t) as [Ht Hts].
      split; [exact Ht|]. constructor; [|exact Hts].
      eapply Qle_trans; eassumption.
Qed.

Lemma cleanup_requests_of self now id :
  RL.requests_of (RL.cleanup self now) id =
  if RL.expired_entry (now - inject_Z (RL.window_seconds self))%Q
       (RL.requests_of self id)
  then [] else RL.requests_of self id.
Proof.
  unfold RL.requests_of, RL.cleanup. cbn [RL._requests RL.window_seconds].
  destruct (RL._requests self !! id) as [v|] eqn:E; cbn [from_option Datatypes.id].
  - destruct (RL.expired_entry _ v) eqn:Hx.
    + rewrite (proj2 (map_lookup_filter_None _ _ _)); [reflexivity|].
      right. intros x Hx'. rewrite E in Hx'. injection Hx' as <-.
      cbn. rewrite Hx. discriminate.
    + rewrite (map_lookup_filter_Some_2 _ _ _ v); [reflexivity|exact E|].
      cbn. exact Hx.
  - rewrite (proj2 (map_lookup_filter_None _ _ _)); [reflexivity|].
    left. exact E.
Qed.

Lemma expired_entry_none_live window now later v :
  (now <= later)%Q ->
  RL.expired_entry (now - inject_Z window)%Q v = true ->
  prune window later v = [].
Proof.
  intros Hle Hx. apply prune_none_live.
  destruct v as [|t ts]; [constructor|]. cbn in Hx. apply Qltb_lt in Hx.
  destruct (max_list_ge t ts) as [Ht Hts].
  assert (Hall : Forall (fun x => (x <= max_list t ts)%Q) (t :: ts))
    by (constructor; assumption).
  eapply Forall_impl; [exact Hall|]. cbn. intros x Hxm Hl.
  unfold live in Hl. lra.
Qed.

(** X16. [cleanup] is invisible to [is_allowed]: a call at the time of the
    cleanup or later gets the same answer and stores the same timestamps for
    its identity as without the cleanup. And the cleanup keeps, unchanged,
    every identity that has a live timestamp. *)
Theorem cleanup_invisible_to_is_allowed self id (swept now : Q) :
  (swept <= now)%Q ->
  fst (RL.is_allowed (RL.cleanup self swept) id now)
    = fst (RL.is_allowed self id now) /\
  RL.requests_of (snd (RL.is_allowed (RL.cleanup self swept) id now)) id
    = RL.requests_of (snd (RL.is_allowed self id now)) id /\
  (Exists (live (RL.window_seconds self) swept) (RL.requests_of self id) ->
   RL.requests_of (RL.cleanup self swept) id = RL.requests_of self id).
Proof.
  intros Hle.
  assert (Hprune :
    prune (RL.window_seconds self) now
      (RL.requests_of (RL.cleanup self swept) id)
    = prune (RL.window_seconds self) now (RL.requests_of self id)).
  { rewrite cleanup_requests_of.
    destruct (RL.expired_entry _ _) eqn:Hx; [|reflexivity].
    rewrite (expired_entry_none_live _ _ _ _ Hle Hx). reflexivity. }
  split; [|split].
  - rewrite !is_allowed_unfold. cbv zeta.
    change (RL.window_seconds (RL.cleanup self swept))
      with (RL.window_seconds self).
    change (RL.max_requests (RL.cleanup self swept))
      with (RL.max_requests self).
    rewrite Hprune. destruct (_ >=? _)%Z; reflexivity.
  - rewrite !is_allowed_requests_of. cbv zeta.
    change (RL.window_seconds (RL.cleanup self swept))
      with (RL.window_seconds self).
    change (RL.max_requests (RL.cleanup self swept))
      with (RL.max_requests self).
    rewrite Hprune.
    destruct (decide (id = id)) as [_|Hne]; [reflexivity|contradiction].
  - intros Hlive. rewrite cleanup_requests_of.
    destruct (RL.expired_entry _ _) eqn:Hx; [|reflexivity].
    exfalso.
    pose proof (expired_entry_none_live _ _ _ _ (Qle_refl swept) Hx) as Hn.
    apply List.Exists_exists in Hlive as (x & Hin & Hl).
    assert (Hinp : In x (prune (RL.window_seconds self) swept
                           (RL.requests_of self id))).
    { apply filter_In. split; [exact Hin|]. apply Qgtb_gt. exact Hl. }
    rewrite Hn in Hinp. destruct Hinp.
Qed.

(** The requests of 0 s and 50 s, swept at 200 s: the identity is gone, and
    the call at 201 s is answered as if nothing had been swept. *)
Lemma cleanup_invisible_to_is_allowed_at_200 :
  (200 <= 201)%Q /\
  RL._requests (RL.cleanup two_requests 200) !! "X" = None /\
  fst (RL.is_allowed (RL.cleanup two_requests 200) "X" 201)
    = fst (RL.is_allowed two_requests "X" 201) /\
  fst (RL.is_allowed two_requests "X" 201) = (true, 4).
Proof.
  assert (Hle : (200 <= 201)%Q) by (vm_compute; discriminate).
  split; [exact Hle|]. split; [vm_compute; reflexivity|].
  destruct (cleanup_invisible_to_is_allowed two_requests "X" 200 201 Hle)
    as (H & _).
  split; [exact H|vm_compute; reflexivity].
Defined.

(** *** SecurityManager.check_rate_limit *)



(** *** GenerationLimiter.can_generate *)

Lemma prune_idempotent window now l :
  prune window now (prune window now l) = prune window now l.
Proof. apply prune_all_live. apply prune_live. Qed.

(** X18. A check is free: asking again at the same clock reading gives the same
    answer and leaves the limiter as the first check left it. *)
Theorem can_generate_check_is_free self id now :
  let first := GL.can_generate self id now in
  GL.can_generate (snd first) id now = first.
Proof.
  cbv zeta.
  set (kept := prune (GL.window_seconds self) now (GL.generations_of self id)).
  set (self1 := GL.set_generations self id kept).
  assert (Hsnd : snd (GL.can_generate self id now) = self1).
  { rewrite quota_can_generate_unfold. cbv zeta. fold kept. fold self1.
    destruct (_ >=? _)%Z; [destruct kept|]; reflexivity. }
  rewrite Hsnd.
  rewrite (quota_can_generate_unfold self1), (quota_can_generate_unfold self).
  cbv zeta. fold kept. fold self1.
  assert (Hsecond :
    prune (GL.window_seconds self1) now (GL.generations_of self1 id) = kept).
  { unfold self1. rewrite generations_of_set. apply prune_idempotent. }
  assert (Hsame : GL.set_generations self1 id kept = self1).
  { unfold self1, GL.set_generations. cbn. rewrite insert_insert_eq.
    reflexivity. }
  rewrite Hsecond, Hsame. reflexivity.
Qed.

(** *** The session registry *)

Lemma validate_session_present self sid now s :
  sid <> "" ->
  SM._sessions self !! sid = Some s ->
  SM.validate_session self sid now =
    if (SM.timeout_seconds self >? 0)%Z && SM.idle_too_long self now s
    then (None, SM.set_sessions self (delete sid (SM._sessions self)))
    else (Some (SM.touch s now),
          SM.set_sessions self (<[sid := SM.touch s now]> (SM._sessions self))).
Proof.
  intros Hne Hs. unfold SM.validate_session.
  apply String.eqb_neq in Hne. rewrite Hne, Hs. reflexivity.
Qed.

Lemma validate_session_absent self sid now :
  SM._sessions self !! sid = None ->
  SM.validate_session self sid now = (None, self).
Proof.
  intros Hs. unfold SM.validate_session. rewrite Hs.
  destruct (String.eqb sid ""); reflexivity.
Qed.

Lemma visible_not_expired self now s :
  visible self now s ->
  (SM.timeout_seconds self >? 0)%Z && SM.idle_too_long self now s = false.
Proof.
  intros Hv. destruct (_ && _) eqn:E; [|reflexivity].
  apply expired_iff in E. contradiction.
Qed.

(** X19. A session just created is valid at any time within the timeout (at any
    time at all when the timeout is not positive): [validate_session] returns
    it under the id that [create_session] returned, with the user, the
    address and the creation time it was created with. *)
Theorem create_then_validate self username ip token (now later : Q) :
  token <> "" ->
  SM.timeout_seconds self <= 0 \/
  (later - now <= inject_Z (SM.timeout_seconds self))%Q ->
  let created := SM.create_session self username ip token now in
  fst created = token /\
  fst (SM.validate_session (snd created) (fst created) later) =
    Some {| SM.session_id := token; SM.username := username;
            SM.ip_address := ip; SM.created_at := now;
            SM.last_activity := later; SM.generation_count := 0 |}.
Proof.
  intros Hne Hin. cbv zeta. split; [reflexivity|].
  cbn [fst snd SM.create_session].
  set (session := {| SM.session_id := token; SM.username := username;
                     SM.ip_address := ip; SM.created_at := now;
                     SM.last_activity := now; SM.generation_count := 0 |}).
  rewrite (validate_session_present _ token later session Hne);
    [|cbn; apply lookup_insert_eq].
  rewrite visible_not_expired; [reflexivity|exact Hin].
Qed.

Lemma create_then_validate_after_an_hour :
  "token" <> "" /\
  (SM.timeout_seconds (SM.__init__ 60) <= 0 \/
   (3600 - 0 <= inject_Z (SM.timeout_seconds (SM.__init__ 60)))%Q) /\
  fst (SM.validate_session one_session "token" 3600) =
    Some {| SM.session_id := "token"; SM.username := "admin";
            SM.ip_address := "127.0.0.1"; SM.created_at := 0;
            SM.last_activity := 3600; SM.generation_count := 0 |}.
Proof.
  assert (Hne : "token" <> "") by discriminate.
  assert (Hin : SM.timeout_seconds (SM.__init__ 60) <= 0 \/
    (3600 - 0 <= inject_Z (SM.timeout_seconds (SM.__init__ 60)))%Q)
    by (right; vm_compute; discriminate).
  split; [exact Hne|]. split; [exact Hin|].
  exact (proj2 (create_then_validate (SM.__init__ 60) "admin" "127.0.0.1"
                  "token" 0 3600 Hne Hin)).
Defined.

(** X20. After [end_session] the id is unknown to [validate_session]; every
    other id is validated as before; and ending an id that is not stored
    changes nothing. *)
Theorem end_session_forgets self sid now :
  fst (SM.validate_session (SM.end_session self sid) sid now) = None /\
  (forall other, other <> sid ->
     fst (SM.validate_session (SM.end_session self sid) other now)
       = fst (SM.validate_session self other now)) /\
  (SM._sessions self !! sid = None -> SM.end_session self sid = self).
Proof.
  split; [|split].
  - rewrite validate_session_absent; [reflexivity|].
    cbn. apply lookup_delete_eq.
  - intros other Hne. unfold SM.validate_session, SM.end_session.
    cbn [SM._sessions SM.set_sessions SM.timeout_seconds].
    rewrite lookup_delete_ne by congruence.
    destruct (String.eqb other ""); [reflexivity|].
    destruct (SM._sessions self !! other); [|reflexivity].
    unfold SM.idle_too_long. cbn [SM.timeout_seconds].
    destruct (_ && _); reflexivity.
  - intros Hnone. unfold SM.end_session, SM.set_sessions.
    rewrite delete_id by exact Hnone. destruct self; reflexivity.
Qed.

(** X21. [cleanup_expired] removes exactly the sessions that have run out: what
    is stored afterwards is what was stored and still within the timeout;
    and [validate_session] at the time of the sweep answers as it would
    have without it. *)
Theorem cleanup_expired_is_validate_expiry self sid now :
  (forall s, SM._sessions (SM.cleanup_expired self now) !! sid = Some s <->
             SM._sessions self !! sid = Some s /\ visible self now s) /\
  fst (SM.validate_session (SM.cleanup_expired self now) sid now)
    = fst (SM.validate_session self sid now).
Proof.
  assert (Hlook : forall s,
    SM._sessions (SM.cleanup_expired self now) !! sid = Some s <->
    SM._sessions self !! sid = Some s /\ visible self now s).
  { intros s. unfold SM.cleanup_expired.
    destruct (Z.leb_spec (SM.timeout_seconds self) 0) as [Hle|Hgt].
    - split; [intros H; split; [exact H|left; exact Hle]|intros [H _]; exact H].
    - cbn [SM._sessions SM.set_sessions].
      rewrite map_lookup_filter_Some. cbn [snd].
      unfold visible, SM.idle_too_long. rewrite Qgtb_le.
      split; intros [H Hv]; (split; [exact H|]).
      + right. exact Hv.
      + destruct Hv as [Hv|Hv]; [lia|exact Hv]. }
  split; [exact Hlook|].
  assert (Htimeout : SM.timeout_seconds (SM.cleanup_expired self now)
                     = SM.timeout_seconds self).
  { unfold SM.cleanup_expired. destruct (_ <=? _)%Z; reflexivity. }
  destruct (String.eqb_spec sid "") as [->|Hne]; [reflexivity|].
  destruct (SM._sessions self !! sid) as [s|] eqn:Hs.
  - rewrite (validate_session_present self sid now s Hne Hs).
    destruct (_ && _) eqn:E.
    + assert (Hnone : SM._sessions (SM.cleanup_expired self now) !! sid
                      = None).
      { destruct (SM._sessions (SM.cleanup_expired self now) !! sid)
          as [s'|] eqn:Hs'; [|reflexivity].
        destruct (proj1 (Hlook s') eq_refl) as [Heq Hv].
        injection Heq as <-. apply expired_iff in E. contradiction. }
      rewrite validate_session_absent by exact Hnone. reflexivity.
    + assert (Hv : visible self now s).
      { destruct (Z.gtb_spec (SM.timeout_seconds self) 0) as [Hpos|Hnp];
          [|left; lia]. cbn in E. right. apply Qgtb_le. exact E. }
      assert (Hkept : SM._sessions (SM.cleanup_expired self now) !! sid
                      = Some s) by (apply Hlook; auto).
      rewrite (validate_session_present _ sid now s Hne Hkept).
      unfold SM.idle_too_long. rewrite Htimeout.
      fold (SM.idle_too_long self now s). rewrite E. reflexivity.
  - assert (Hnone : SM._sessions (SM.cleanup_expired self now) !! sid = None).
    { destruct (SM._sessions (SM.cleanup_expired self now) !! sid)
        as [s'|] eqn:Hs'; [|reflexivity].
      destruct (proj1 (Hlook s') eq_refl) as [Heq _]. discriminate. }
    rewrite !validate_session_absent by assumption. reflexivity.
Qed.

(** X22. Sliding expiration: once [validate_session] has returned a session, it
    returns it again at any later time within one timeout of that
    validation, however long ago the session was created; and a validation
    touches no other session. *)
Theorem validate_session_slides self sid (now later : Q) :
  is_Some (fst (SM.validate_session self sid now)) ->
  (later - now <= inject_Z (SM.timeout_seconds self))%Q ->
  let self' := snd (SM.validate_session self sid now) in
  is_Some (fst (SM.validate_session self' sid later)) /\
  (forall other, other <> sid ->
     SM._sessions self' !! other = SM._sessions self !! other).
Proof.
  intros Hsome Hin. cbv zeta.
  destruct (String.eqb_spec sid "") as [->|Hne].
  { cbn in Hsome. destruct Hsome as [? H]. discriminate. }
  destruct (SM._sessions self !! sid) as [s|] eqn:Hs.
  - rewrite (validate_session_present self sid now s Hne Hs) in *.
    destruct (_ && _); [destruct Hsome as [? H]; discriminate|].
    cbn [fst snd]. split.
    + rewrite (validate_session_present _ sid later (SM.touch s now) Hne);
        [|cbn; apply lookup_insert_eq].
      rewrite visible_not_expired; [cbn; eauto|]. right. exact Hin.
    + intros other Ho. cbn. rewrite lookup_insert_ne by congruence.
      reflexivity.
  - rewrite validate_session_absent in Hsome by exact Hs.
    destruct Hsome as [? H]. discriminate.
Qed.

(** Scenario D: created at 0 s, validated at 59 min, the session is still
    valid at 119 min, well after one timeout since its creation. *)
Lemma validate_session_slides_scenario_D :
  is_Some (fst (SM.validate_session one_session "token" 3540)) /\
  (7140 - 3540 <= inject_Z (SM.timeout_seconds one_session))%Q /\
  is_Some (fst (SM.validate_session
                  (snd (SM.validate_session one_session "token" 3540))
                  "token" 7140)).
Proof.
  assert (H1 : is_Some (fst (SM.validate_session one_session "token" 3540)))
    by (vm_compute; eauto).
  assert (H2 : (7140 - 3540 <= inject_Z (SM.timeout_seconds one_session))%Q)
    by (vm_compute; discriminate).
  split; [exact H1|]. split; [exact H2|].
  exact (proj1 (validate_session_slides one_session "token" 3540 7140 H1 H2)).
Defined.

(** *** API keys *)

Section ApiKeys.
Local Open Scope string_scope.

Lemma substring_0_length s : String.substring 0 (String.length s) s = s.
Proof. induction s as [|c s IH]; [reflexivity|]. cbn. rewrite IH. reflexivity. Qed.

Lemma bearer_cons key :
  "Bearer " ++ key =
  String "B" (String "e" (String "a" (String "r" (String "e"
    (String "r" (String " " key)))))).
Proof. reflexivity. Qed.

Lemma slice_from_bearer key : slice_from 7 ("Bearer " ++ key) = key.
Proof.
  rewrite bearer_cons. unfold slice_from. cbn. rewrite Nat.sub_0_r.
  apply substring_0_length.
Qed.

Lemma startswith_bearer key : startswith ("Bearer " ++ key) "Bearer " = true.
Proof.
  rewrite bearer_cons. unfold startswith. cbn. destruct key; reflexivity.
Qed.

Lemma startswith_bearer_inv s :
  startswith s "Bearer " = true -> s = "Bearer " ++ slice_from 7 s.
Proof.
  unfold startswith. intros H. apply String.prefix_correct in H.
  do 7 (destruct s as [|? s]; [cbn in H; discriminate|]).
  cbn in H. injection H as -> -> -> -> -> -> -> _.
  unfold slice_from. cbn [String.length String.substring Nat.sub].
  rewrite Nat.sub_0_r, substring_0_length. reflexivity.
Qed.

Lemma is_ascii_app a b : is_ascii (a ++ b) = is_ascii a && is_ascii b.
Proof.
  induction a as [|c a IH]; [reflexivity|].
  change (String c a ++ b) with (String c (a ++ b)).
  cbn [is_ascii]. rewrite IH. apply andb_assoc.
Qed.


(** X23. With an ASCII key configured: the key behind "Bearer " is accepted; the
    bare key is accepted unless it begins with "Bearer " itself, which the
    check would cut off; and a key made by [generate_api_key] from an ASCII
    token is accepted bare and behind "Bearer ". *)
Theorem verify_api_key_accepts_the_key config key :
  configured config key ->
  is_ascii key = true ->
  SEC.verify_api_key config (Some ("Bearer " ++ key)) = Ok true /\
  SEC.verify_api_key config (Some key)
    = Ok (negb (startswith key "Bearer ")) /\
  (forall token, key = SEC.generate_api_key token ->
     SEC.verify_api_key config (Some key) = Ok true).
Proof.
  intros [Hk Hne] Hascii.
  assert (Hbare : SEC.verify_api_key config (Some key)
                  = Ok (negb (startswith key "Bearer "))).
  { unfold SEC.verify_api_key. rewrite Hk. cbn [SEC.str_truthy].
    apply String.eqb_neq in Hne. rewrite Hne. cbn [negb].
    destruct (startswith key "Bearer ") eqn:Hs.
    - apply startswith_bearer_inv in Hs.
      set (rest := slice_from 7 key) in *.
      assert (Har : is_ascii rest = true).
      { rewrite Hs, is_ascii_app in Hascii.
        apply andb_true_iff in Hascii as [_ H]. exact H. }
      unfold compare_digest. rewrite Har, Hascii. cbn [andb negb].
      f_equal. apply String.eqb_neq. intros H.
      rewrite Hs in H. rewrite bearer_cons in H.
      apply (f_equal String.length) in H. cbn in H. lia.
    - unfold compare_digest. rewrite Hascii. cbn [andb negb].
      rewrite String.eqb_refl. reflexivity. }
  split; [|split; [exact Hbare|]].
  - unfold SEC.verify_api_key. rewrite Hk. cbn [SEC.str_truthy].
    apply String.eqb_neq in Hne. rewrite Hne. cbn [negb].
    rewrite (bearer_cons key) at 1. cbn [String.eqb]. rewrite <- bearer_cons.
    rewrite startswith_bearer, slice_from_bearer.
    unfold compare_digest. rewrite Hascii. cbn [andb].
    rewrite String.eqb_refl. reflexivity.
  - intros token ->. rewrite Hbare. reflexivity.
Qed.

Lemma verify_api_key_accepts_the_key_generated :
  let config :=
    {| SEC.auth_enabled := true; SEC.auth_username := "admin";
       SEC.auth_password := "music2026";
       SEC.api_key := Some (SEC.generate_api_key "q0Xb-7_A");
       SEC.rate_limit_per_minute := 30; SEC.generation_limit_per_hour := 20;
       SEC.localhost_only := false; SEC.allowed_ips := ∅;
       SEC.blocked_ips := ∅; SEC.session_timeout_minutes := 60;
       SEC.log_access := true; SEC.log_auth_failures := true |} in
  configured config "sk-acestep-q0Xb-7_A" /\
  is_ascii "sk-acestep-q0Xb-7_A" = true /\
  SEC.verify_api_key config (Some "Bearer sk-acestep-q0Xb-7_A") = Ok true /\
  SEC.verify_api_key config (Some "sk-acestep-q0Xb-7_A") = Ok true.
Proof.
  cbv zeta.
  match goal with |- configured ?c _ /\ _ => set (config := c) end.
  assert (Hc : configured config "sk-acestep-q0Xb-7_A")
    by (split; [reflexivity|discriminate]).
  split; [exact Hc|]. split; [reflexivity|].
  destruct (verify_api_key_accepts_the_key config _ Hc eq_refl)
    as (Hbearer & Hbare & _).
  split; [exact Hbearer|exact Hbare].
Defined.

(** A configured key that itself begins with "Bearer " is refused when
    presented as it is. *)
Example verify_api_key_key_with_prefix :
  let config :=
    {| SEC.auth_enabled := true; SEC.auth_username := "admin";
       SEC.auth_password := "music2026"; SEC.api_key := Some "Bearer abc";
       SEC.rate_limit_per_minute := 30; SEC.generation_limit_per_hour := 20;
       SEC.localhost_only := false; SEC.allowed_ips := ∅;
       SEC.blocked_ips := ∅; SEC.session_timeout_minutes := 60;
       SEC.log_access := true; SEC.log_auth_failures := true |} in
  SEC.verify_api_key config (Some "Bearer abc") = Ok false /\
  SEC.verify_api_key config (Some "Bearer Bearer abc") = Ok true.
Proof. split; reflexivity. Qed.

End ApiKeys.

(** *** The Gradio login *)

(** X24. [verify_gradio_auth] accepts exactly the pair that [get_gradio_auth]
    hands to Gradio, and everything when that is [None]. *)
Theorem verify_gradio_auth_matches config username password :
  SEC.verify_gradio_auth config username password = true <->
  match SEC.get_gradio_auth config with
  | None => True
  | Some (u, p) => username = u /\ password = p
  end.
Proof.
  unfold SEC.verify_gradio_auth, SEC.get_gradio_auth.
  destruct (SEC.auth_enabled config); cbn [negb]; [|tauto].
  rewrite andb_true_iff, !String.eqb_eq. reflexivity.
Qed.

(** *** require_auth *)

(** X25. The decorated function is called exactly when there is no request
    object at all, or the key check returned True and the client host, if
    the request has one, passed the IP check. A refused key is reported
    before any IP check. *)
Theorem require_auth_runs_iff {A} config (request : option SEC.Request)
    (func : A) :
  (SEC.require_auth config request func = SEC.Ran func <->
   request = None \/
   exists r, request = Some r /\
     SEC.verify_api_key config (SEC.authorization r) = Ok true /\
     (SEC.client_host r = None \/
      exists host, SEC.client_host r = Some host /\
        fst (SEC.check_ip_access config host) = true)) /\
  (forall r, request = Some r ->
     SEC.verify_api_key config (SEC.authorization r) = Ok false ->
     SEC.require_auth config request func
       = SEC.PermissionError "Invalid or missing API key").
Proof.
  split.
  - destruct request as [r|]; cbn [SEC.require_auth]; [|tauto].
    destruct (SEC.verify_api_key config (SEC.authorization r)) as [[]|e]
      eqn:Hv.
    + destruct (SEC.client_host r) as [host|] eqn:Hh.
      * destruct (SEC.check_ip_access config host) as [allowed msg] eqn:Hip.
        destruct allowed; cbn [negb fst].
        -- split; [intros _|reflexivity]. right. exists r.
           split; [reflexivity|]. split; [exact Hv|].
           right. exists host. rewrite Hip. auto.
        -- split; [discriminate|].
           intros [H|(r' & [= <-] & _ & [H|(h & H1 & H2)])];
             try discriminate; [congruence|].
           rewrite Hh in H1. injection H1 as <-. rewrite Hip in H2.
           discriminate.
      * split; [intros _|reflexivity]. right. exists r.
        split; [reflexivity|]. split; [exact Hv|]. left. exact Hh.
    + split; [discriminate|].
      intros [H|(r' & [= <-] & H & _)]; [discriminate|congruence].
    + split; [discriminate|].
      intros [H|(r' & [= <-] & H & _)]; [discriminate|congruence].
  - intros r -> Hbad. cbn [SEC.require_auth]. rewrite Hbad. reflexivity.
Qed.

(** *** The address lists of the environment *)

Lemma str_to_set_elem s x :
  x ∈ SEC.str_to_set s <->
  x <> "" /\ exists e, In e (split "," s) /\ x = strip e.
Proof.
  unfold SEC.str_to_set. destruct (String.eqb_spec s "") as [->|Hne].
  - split; [intros H; exfalso; set_solver|].
    intros (Hx & e & [<-|[]] & ->). exfalso. apply Hx. reflexivity.
  - rewrite elem_of_list_to_set, list_elem_of_In, filter_In, in_map_iff.
    rewrite negb_true_iff, String.eqb_neq.
    split.
    + intros [(e & <- & He) Hx]. split; [exact Hx|]. exists e. auto.
    + intros (Hx & e & He & ->). split; [|exact Hx]. exists e. auto.
Qed.

(** X26. An address written in [ACESTEP_BLOCKED_IPS], however it is padded with
    blanks there or in the request, is denied as blocked; and the list so
    read never holds the empty address. *)
Theorem blocked_entry_is_denied config (s entry ip_address : string) :
  SEC.blocked_ips config = SEC.str_to_set s ->
  In entry (split "," s) ->
  strip entry <> "" ->
  strip ip_address = strip entry ->
  SEC.check_ip_access config ip_address = (false, "Acesso bloqueado") /\
  "" ∉ SEC.blocked_ips config.
Proof.
  intros Hset Hin Hne Hip. split.
  - unfold SEC.check_ip_access. rewrite Hset, Hip.
    rewrite bool_decide_eq_true_2; [reflexivity|].
    apply str_to_set_elem. split; [exact Hne|]. exists entry. auto.
  - rewrite Hset. intros H. apply str_to_set_elem in H as [H _].
    apply H. reflexivity.
Qed.

Lemma blocked_entry_is_denied_padded :
  let config :=
    {| SEC.auth_enabled := true; SEC.auth_username := "admin";
       SEC.auth_password := "music2026"; SEC.api_key := None;
       SEC.rate_limit_per_minute := 30; SEC.generation_limit_per_hour := 20;
       SEC.localhost_only := false; SEC.allowed_ips := ∅;
       SEC.blocked_ips := SEC.str_to_set "10.0.0.7, 10.0.0.9 ,";
       SEC.session_timeout_minutes := 60;
       SEC.log_access := true; SEC.log_auth_failures := true |} in
  In " 10.0.0.9 " (split "," "10.0.0.7, 10.0.0.9 ,") /\
  strip " 10.0.0.9 " <> "" /\
  SEC.check_ip_access config "10.0.0.9  " = (false, "Acesso bloqueado").
Proof.
  cbv zeta.
  assert (Hin : In " 10.0.0.9 " (split "," "10.0.0.7, 10.0.0.9 ,"))
    by (cbn; auto).
  assert (Hne : strip " 10.0.0.9 " <> "") by (vm_compute; discriminate).
  split; [exact Hin|]. split; [exact Hne|].
  match goal with |- SEC.check_ip_access ?c _ = _ =>
    exact (proj1 (blocked_entry_is_denied c "10.0.0.7, 10.0.0.9 ,"
                    " 10.0.0.9 " "10.0.0.9  " eq_refl Hin Hne eq_refl))
  end.
Defined.

(** *** Password hashes *)

Lemma split_no_char c s : no_char c s = true -> split c s = [s].
Proof.
  induction s as [|x s IH]; [reflexivity|]. cbn [no_char split].
  intros H. apply andb_true_iff in H as [Hx Hs].
  apply negb_true_iff in Hx. rewrite Hx, (IH Hs). reflexivity.
Qed.

Lemma split_app c a b :
  no_char c a = true ->
  split c (String.append a (String c b)) = a :: split c b.
Proof.
  induction a as [|x a IH].
  - intros _. change (String.append "" (String c b)) with (String c b).
    cbn [split]. rewrite Ascii.eqb_refl. reflexivity.
  - cbn [no_char]. intros H. apply andb_true_iff in H as [Hx Ha].
    apply negb_true_iff in Hx.
    change (String.append (String x a) (String c b))
      with (String x (String.append a (String c b))).
    cbn [split]. rewrite Hx, (IH Ha). reflexivity.
Qed.

(** X27. Whatever [sha256_hex] is, as long as it returns ASCII text without a
    colon, as hexadecimal digits are: a password verifies against its own
    hash; another password verifies against it exactly when it hashes to the
    same digest under the same salt; and a string without a colon is no
    hash of any password. *)
Theorem verify_password_hash_round_trip (sha256_hex : string -> string)
    (salt password : string) :
  (forall b, is_ascii (sha256_hex b) = true) ->
  (forall b, no_char ":" (sha256_hex b) = true) ->
  no_char ":" salt = true ->
  SEC.verify_password_hash sha256_hex password
    (SEC.hash_password sha256_hex salt password) = true /\
  (forall other,
     SEC.verify_password_hash sha256_hex other
       (SEC.hash_password sha256_hex salt password) = true <->
     sha256_hex (String.append salt other)
       = sha256_hex (String.append salt password)) /\
  (forall hashed, no_char ":" hashed = true ->
     SEC.verify_password_hash sha256_hex password hashed = false).
Proof.
  intros Hascii Hcolon Hsalt.
  assert (Hverify : forall other,
    SEC.verify_password_hash sha256_hex other
      (SEC.hash_password sha256_hex salt password)
    = String.eqb (sha256_hex (String.append salt other))
        (sha256_hex (String.append salt password))).
  { intros other. unfold SEC.verify_password_hash, SEC.hash_password.
    change (String.append ":" (sha256_hex (String.append salt password)))
      with (String ":" (sha256_hex (String.append salt password))).
    rewrite (split_app _ _ _ Hsalt), (split_no_char _ _ (Hcolon _)).
    unfold compare_digest. rewrite !Hascii. reflexivity. }
  split; [|split].
  - rewrite Hverify. apply String.eqb_refl.
  - intros other. rewrite Hverify. apply String.eqb_eq.
  - intros hashed Hno. unfold SEC.verify_password_hash.
    rewrite (split_no_char _ _ Hno). reflexivity.
Qed.

Lemma verify_password_hash_round_trip_constant_digest :
  (forall b : string, is_ascii ((fun _ => "9f86d0") b) = true) /\
  (forall b : string, no_char ":" ((fun _ => "9f86d0") b) = true) /\
  no_char ":" "a1b2" = true /\
  SEC.verify_password_hash (fun _ => "9f86d0") "music2026"
    (SEC.hash_password (fun _ => "9f86d0") "a1b2" "music2026") = true.
Proof.
  assert (H1 : forall b : string, is_ascii ((fun _ => "9f86d0") b) = true)
    by (intros; reflexivity).
  assert (H2 : forall b : string, no_char ":" ((fun _ => "9f86d0") b) = true)
    by (intros; reflexivity).
  split; [exact H1|]. split; [exact H2|]. split; [reflexivity|].
  exact (proj1 (verify_password_hash_round_trip (fun _ => "9f86d0")
                  "a1b2" "music2026" H1 H2 eq_refl)).
Defined.

(** *** rate_limited *)

(** X28. Requests without a client host are all counted under the one identity
    "unknown": such a call is treated as the call without any request
    object, and it runs exactly when [is_allowed] allows "unknown". *)
Theorem rate_limited_hostless {A} self (request : SEC.Request)
    (now later : Q) (func : A) :
  SEC.client_host request = None ->
  SEC.rate_limited self (Some request) now later func
    = SEC.rate_limited self None now later func /\
  (fst (SEC.rate_limited self (Some request) now later func) = SEC.Ran func
   <-> fst (fst (RL.is_allowed (SEC.rate_limiter self) "unknown" now))
       = true).
Proof.
  intros Hhost. unfold SEC.rate_limited. rewrite Hhost.
  cbn [from_option Datatypes.id]. split; [reflexivity|].
  unfold SEC.check_rate_limit.
  destruct (RL.is_allowed (SEC.rate_limiter self) "unknown" now)
    as [[allowed remaining] limiter].
  destruct allowed; cbn [negb fst]; split; auto; discriminate.
Qed.

(** One request per minute: a first hostless caller runs, and a second
    hostless caller, ten seconds later, is refused. *)
Lemma rate_limited_hostless_two_callers :
  let first := {| SEC.authorization := Some "Bearer a";
                  SEC.client_host := None |} in
  let second := {| SEC.authorization := None; SEC.client_host := None |} in
  let self1 :=
    snd (SEC.rate_limited (SEC.__init__ one_per_window) (Some first) 0 0 tt) in
  SEC.client_host second = None /\
  fst (SEC.rate_limited (SEC.__init__ one_per_window) (Some first) 0 0 tt)
    = SEC.Ran tt /\
  SEC.rate_limited self1 (Some second) 10 10 tt
    = SEC.rate_limited self1 None 10 10 tt /\
  fst (SEC.rate_limited self1 (Some second) 10 10 tt)
    = SEC.RateLimited (SEC.msg_rate_limit 50).
Proof.
  cbv zeta. split; [reflexivity|]. split; [vm_compute; reflexivity|].
  split; [|vm_compute; reflexivity].
  match goal with |- SEC.rate_limited ?s (Some ?r) _ _ _ = _ =>
    exact (proj1 (rate_limited_hostless s r 10 10 tt eq_refl))
  end.
Defined.

End SecurityExtra.
